(** * plum: directory scan, size aggregation and sunburst transformation

    A shallow embedding of [plum.py]: [get_size],
    [list_files_and_folders_recursive] and [transform_for_d3_sunburst].

    Python values
    - integers are unbounded: [Z];
    - the dictionaries built by the scanner and the transformer are used as
      records with a fixed universe of keys; a key that may be absent is an
      [option] field ([None] = the key is not in the dict), and the Python
      value [None] stored under ['size'] is the inner [None] of
      [option (option Z)];
    - exceptions are explicit: a computation returns [Ok v] or [Raise e].

    Filesystem
    The program observes the filesystem only through [os.path.isfile],
    [os.path.isdir], [os.path.islink], [os.path.getsize], [os.scandir],
    [DirEntry.is_dir] and [os.walk].  A filesystem state is modelled by the
    tree of what those calls answer: one [fsnode] per path the program can
    reach by joining names returned by [os.scandir], holding the answer of
    every primitive on that path.  The answers of one node are not tied to
    each other, so every combination the operating system can produce is
    covered (unreadable directories, entries that cannot be stat'ed,
    dangling links, sockets, a file that vanishes between two probes).
    The tree is finite, as the paths of a filesystem are: directories are
    finite and path names are bounded, and a cycle of symbolic links shows
    as a chain of nodes ending where the system refuses the path.  A path
    argument of the program is a string together with the node it denotes;
    the strings are kept because they end up in the result.

    Not modelled: the recursion limit of the interpreter, memory
    exhaustion, and the writing of the JSON and HTML files. *)

From Stdlib Require Import List ZArith String Ascii Bool Lia.
Import ListNotations.

Local Open Scope string_scope.
Local Open Scope Z_scope.
Local Open Scope list_scope.

(** ** Exceptions and results *)

(** The subclasses of [OSError] the [os] primitives raise. *)
Inductive oserror : Type :=
| PermissionError
| FileNotFoundError
| NotADirectoryError
| OtherOSError.

(** The exceptions of the program: [OSError] (with its subclasses) from the
    filesystem, [KeyError] from indexing a dict with a missing key. *)
Inductive exn : Type :=
| OSError (e : oserror)
| KeyError (key : string).

Inductive result (A : Type) : Type :=
| Ok (a : A)
| Raise (e : exn).

Arguments Ok {A} a.
Arguments Raise {A} e.

Definition ret {A} (a : A) : result A := Ok a.

Definition bind {A B} (m : result A) (k : A -> result B) : result B :=
  match m with
  | Ok a => k a
  | Raise e => Raise e
  end.

Notation "x <- m ;; k" := (bind m (fun x => k))
  (at level 61, m at next level, right associativity).

(** [try: m except (OSError, PermissionError): h].  [PermissionError] is a
    subclass of [OSError]; any other exception passes through. *)
Definition try_except_OSError {A} (m : result A) (h : result A) : result A :=
  match m with
  | Raise (OSError _) => h
  | _ => m
  end.

Section Loops.
Context {A S : Type}.

(** [for x in l: acc = body(acc, x)] for a loop whose only state is a
    local accumulator; an exception leaves the loop. *)
Fixpoint for_acc (body : S -> A -> result S) (l : list A) (acc : S)
  : result S :=
  match l with
  | [] => Ok acc
  | x :: rest =>
      match body acc x with
      | Ok acc' => for_acc body rest acc'
      | Raise e => Raise e
      end
  end.

(** [for x in l: body(x)] for a loop that mutates an object [s] in place:
    when an iteration raises, the mutations made so far stay. *)
Fixpoint for_in (body : S -> A -> S * result unit) (l : list A) (s : S)
  : S * result unit :=
  match l with
  | [] => (s, Ok tt)
  | x :: rest =>
      match body s x with
      | (s', Ok _) => for_in body rest s'
      | (s', Raise e) => (s', Raise e)
      end
  end.
End Loops.

(** ** The filesystem as seen through [os] *)

(** The answer of a system call: a value, or an [OSError]. *)
Inductive sys (A : Type) : Type :=
| Returns (a : A)
| Errno (e : oserror).

Arguments Returns {A} a.
Arguments Errno {A} e.

Definition lift {A} (r : sys A) : result A :=
  match r with
  | Returns a => Ok a
  | Errno e => Raise (OSError e)
  end.

(** What the primitives answer on one path.  [os.path.isfile], [isdir] and
    [islink] swallow [OSError] and answer [False]; [os.path.getsize],
    [os.scandir] and [DirEntry.is_dir] can raise.  [os.scandir] raises when
    the directory cannot be opened; once open, its iterator yields the
    entries and may still raise after the last one it could read. *)
#[local] Unset Elimination Schemes.
Inductive fsnode : Type :=
  FsNode {
    is_dir : sys bool;                           (* DirEntry.is_dir() *)
    os_path_isfile : bool;
    os_path_isdir : bool;
    os_path_islink : bool;
    os_path_getsize : sys Z;
    os_scandir : sys (list (string * fsnode));   (* names and their objects *)
    scandir_next_error : option oserror          (* raised after the last one *)
  }.
#[local] Set Elimination Schemes.

(** [os.path.join(a, b)] of [posixpath]. *)
Definition starts_with_sep (s : string) : bool :=
  match s with
  | String c _ => Ascii.eqb c "/"
  | EmptyString => false
  end.

Fixpoint ends_with_sep (s : string) : bool :=
  match s with
  | EmptyString => false
  | String c EmptyString => Ascii.eqb c "/"
  | String _ rest => ends_with_sep rest
  end.

Definition os_path_join (a b : string) : string :=
  if starts_with_sep b then b
  else if (String.eqb a "" || ends_with_sep a)%bool then (a ++ b)%string
  else (a ++ "/" ++ b)%string.

(** [entry.is_dir()] as [os.walk] calls it: an [OSError] counts as [False]. *)
Definition walk_is_dir (n : fsnode) : bool :=
  match is_dir n with
  | Returns b => b
  | Errno _ => false
  end.

(** [os.walk(top)] with its defaults ([topdown=True], [onerror=None],
    [followlinks=False]), as the list of the triples it yields.  A name is
    paired with the object its joined path denotes.  A directory whose
    listing fails, at the opening or during the iteration, yields nothing
    and is not entered; a sub-directory is entered unless it is a symbolic
    link. *)
Fixpoint os_walk (top : string) (n : fsnode)
  : list (string * list (string * fsnode) * list (string * fsnode)) :=
  match os_scandir n with
  | Errno _ => []
  | Returns ents =>
      match scandir_next_error n with
      | Some _ => []
      | None =>
          let dirs := filter (fun e => walk_is_dir (snd e)) ents in
          let nondirs := filter (fun e => negb (walk_is_dir (snd e))) ents in
          (top, dirs, nondirs)
            :: flat_map
                 (fun e =>
                    if (walk_is_dir (snd e)
                        && negb (os_path_islink (snd e)))%bool
                    then os_walk (os_path_join top (fst e)) (snd e)
                    else [])
                 ents
      end
  end.

(** ** [get_size] *)

(** In the inner loop [fp] is the object at [os.path.join(dirpath, f)]. *)
Definition get_size (path : string) (n : fsnode) : result (option Z) :=
  try_except_OSError
    (if os_path_isfile n then
       sz <- lift (os_path_getsize n) ;;
       ret (Some sz)
     else if os_path_isdir n then
       total_size <-
         for_acc
           (fun total_size '(dirpath, dirnames, filenames) =>
              for_acc
                (fun total_size '(f, fp) =>
                   if negb (os_path_islink fp) then
                     sz <- lift (os_path_getsize fp) ;;
                     ret (total_size + sz)
                   else ret total_size)
                filenames total_size)
           (os_walk path n) 0 ;;
       ret (Some total_size)
     else ret None)
    (ret None).

(** ** [list_files_and_folders_recursive] *)

(** The dict the scanner builds for one entry.  ['contents'] is a key of
    directory dicts only. *)
#[local] Unset Elimination Schemes.
Inductive DirectoryEntry : Type :=
  Entry {
    name : option string;
    path : option string;
    type : option string;
    size : option (option Z);
    contents : option (list DirectoryEntry)
  }.
#[local] Set Elimination Schemes.

(** One iteration of the [for entry in os.scandir(root)] loop, given the
    function called on sub-directories. *)
Definition scan_entry
    (self : string -> fsnode -> bool -> result (list DirectoryEntry))
    (root : string) (folders_only : bool)
    (structure : list DirectoryEntry) (entry : string * fsnode)
  : list DirectoryEntry * result unit :=
  let entry_name := fst entry in
  let entry_path := os_path_join root (fst entry) in
  match lift (is_dir (snd entry)) with
  | Raise e => (structure, Raise e)
  | Ok true =>
      match get_size entry_path (snd entry) with
      | Raise e => (structure, Raise e)
      | Ok sz =>
          match self entry_path (snd entry) folders_only with
          | Raise e => (structure, Raise e)
          | Ok sub =>
              (structure ++ [ {| name := Some entry_name;
                                 path := Some entry_path;
                                 type := Some "directory";
                                 size := Some sz;
                                 contents := Some sub |} ],
               Ok tt)
          end
      end
  | Ok false =>
      if negb folders_only then
        match get_size entry_path (snd entry) with
        | Raise e => (structure, Raise e)
        | Ok sz =>
            (structure ++ [ {| name := Some entry_name;
                               path := Some entry_path;
                               type := Some "file";
                               size := Some sz;
                               contents := None |} ],
             Ok tt)
        end
      else (structure, Ok tt)
  end.

Fixpoint list_files_and_folders_recursive
    (root : string) (n : fsnode) (folders_only : bool) {struct n}
  : result (list DirectoryEntry) :=
  let structure := [] in
  let '(structure, outcome) :=
    match os_scandir n with
    | Errno e => (structure, Raise (OSError e))
    | Returns entries =>
        match
          for_in
            (scan_entry list_files_and_folders_recursive root folders_only)
            entries structure
        with
        | (structure, Ok _) =>
            match scandir_next_error n with
            | Some e => (structure, Raise (OSError e))
            | None => (structure, Ok tt)
            end
        | (structure, Raise e) => (structure, Raise e)
        end
    end in
  match outcome with
  | Raise (OSError _) => Ok structure        (* except ...: pass *)
  | Raise e => Raise e
  | Ok _ => Ok structure
  end.

(** ** [transform_for_d3_sunburst] *)

(** The dict of one node of the hierarchy: ["name"] is always set,
    ["children"] and ["value"] are keys that may be absent. *)
#[local] Unset Elimination Schemes.
Inductive VisualizationNode : Type :=
  Node {
    node_name : string;
    children : option (list VisualizationNode);
    value : option Z
  }.
#[local] Set Elimination Schemes.

(** [d[key]]: [KeyError] when the key is absent. *)
Definition getitem {A} (field : option A) (key : string) : result A :=
  match field with
  | Some v => Ok v
  | None => Raise (KeyError key)
  end.

(** [item.get('size', 0) or 0]: [None] and [0] are falsy. *)
Definition size_or_0 (field : option (option Z)) : Z :=
  let got := match field with Some v => v | None => Some 0 end in
  match got with
  | Some z => if z =? 0 then 0 else z
  | None => 0
  end.

(** [node["children"].append(child)] *)
Definition append_child (node : VisualizationNode) (child : VisualizationNode)
  : result VisualizationNode :=
  kids <- getitem (children node) "children" ;;
  ret {| node_name := node_name node;
         children := Some (kids ++ [child]);
         value := value node |}.

(** [node["name"] = p] *)
Definition set_name (node : VisualizationNode) (p : string)
  : VisualizationNode :=
  {| node_name := p; children := children node; value := value node |}.

(** One iteration of the [for item in data] loop, given the function called
    on the contents of a directory.  The test
    ['contents' in item and item['contents']] is the first [match]: the key
    is present and its list is non-empty (truthy). *)
Definition sunburst_item
    (self : list DirectoryEntry -> string -> result VisualizationNode)
    (node : VisualizationNode) (item : DirectoryEntry)
  : result VisualizationNode :=
  let size := size_or_0 (size item) in
  match contents item with
  | Some ((_ :: _) as item_contents) =>
      p <- getitem (path item) "path" ;;
      children_node <- self item_contents p ;;
      p' <- getitem (path item) "path" ;;
      append_child node (set_name children_node p')
  | _ =>
      p <- getitem (path item) "path" ;;
      append_child node
        {| node_name := p; children := None; value := Some size |}
  end.

(** The recursion goes through the items of the list, so the fixpoint is
    taken on one item; [transform_for_d3_sunburst_eq] below gives back the
    equation of the source function. *)
Fixpoint sunburst_loop_body (item : DirectoryEntry) (node : VisualizationNode)
    {struct item} : result VisualizationNode :=
  sunburst_item
    (fun data parent_name =>
       for_acc (fun node item => sunburst_loop_body item node) data
         {| node_name := parent_name; children := Some []; value := None |})
    node item.

Definition transform_for_d3_sunburst
    (data : list DirectoryEntry) (parent_name : string)
  : result VisualizationNode :=
  let node :=
    {| node_name := parent_name; children := Some []; value := None |} in
  for_acc (fun node item => sunburst_loop_body item node) data node.

(** ** Filesystem objects *)

(** A regular file of [st_size] bytes. *)
Definition regular_file (st_size : Z) : fsnode :=
  {| is_dir := Returns false;
     os_path_isfile := true;
     os_path_isdir := false;
     os_path_islink := false;
     os_path_getsize := Returns st_size;
     os_scandir := Errno NotADirectoryError;
     scandir_next_error := None |}.

(** A directory that can be listed and searched. *)
Definition directory (entries : list (string * fsnode)) : fsnode :=
  {| is_dir := Returns true;
     os_path_isfile := false;
     os_path_isdir := true;
     os_path_islink := false;
     os_path_getsize := Returns 4096;
     os_scandir := Returns entries;
     scandir_next_error := None |}.

(** A directory without read permission: [os.scandir] raises. *)
Definition unreadable_directory : fsnode :=
  {| is_dir := Returns true;
     os_path_isfile := false;
     os_path_isdir := true;
     os_path_islink := false;
     os_path_getsize := Returns 4096;
     os_scandir := Errno PermissionError;
     scandir_next_error := None |}.

(** A symbolic link whose target does not exist.  [DirEntry.is_dir]
    catches [FileNotFoundError] and answers [False]. *)
Definition broken_symlink : fsnode :=
  {| is_dir := Returns false;
     os_path_isfile := false;
     os_path_isdir := false;
     os_path_islink := true;
     os_path_getsize := Errno FileNotFoundError;
     os_scandir := Errno FileNotFoundError;
     scandir_next_error := None |}.

(** A symbolic link to a regular file of [st_size] bytes. *)
Definition symlink_to_file (st_size : Z) : fsnode :=
  {| is_dir := Returns false;
     os_path_isfile := true;
     os_path_isdir := false;
     os_path_islink := true;
     os_path_getsize := Returns st_size;
     os_scandir := Errno NotADirectoryError;
     scandir_next_error := None |}.

(** A socket: neither a regular file nor a directory. *)
Definition socket : fsnode :=
  {| is_dir := Returns false;
     os_path_isfile := false;
     os_path_isdir := false;
     os_path_islink := false;
     os_path_getsize := Returns 0;
     os_scandir := Errno NotADirectoryError;
     scandir_next_error := None |}.

(** A regular file inside a directory that can be listed but not searched
    (mode [r--]): its name and kind come from the listing, every [stat] and
    [lstat] on it is refused. *)
Definition unstatable_file : fsnode :=
  {| is_dir := Returns false;
     os_path_isfile := false;
     os_path_isdir := false;
     os_path_islink := false;
     os_path_getsize := Errno PermissionError;
     os_scandir := Errno PermissionError;
     scandir_next_error := None |}.

(** ** Notions used by the statements *)

(** The object is a regular file that every probe can read. *)
Definition readable_regular_file (n : fsnode) : bool :=
  match is_dir n, os_path_getsize n with
  | Returns false, Returns _ =>
      os_path_isfile n && negb (os_path_isdir n) && negb (os_path_islink n)
  | _, _ => false
  end.

(** The object is a real directory (not a link) that [stat] can read. *)
Definition plain_directory (n : fsnode) : bool :=
  match is_dir n with
  | Returns true =>
      negb (os_path_isfile n) && os_path_isdir n && negb (os_path_islink n)
  | _ => false
  end.

(** A directory all of whose transitive descendants are readable regular
    files or listable directories of the same kind. *)
Fixpoint only_regular_files (n : fsnode) : bool :=
  plain_directory n &&
  match os_scandir n, scandir_next_error n with
  | Returns entries, None =>
      forallb
        (fun e => readable_regular_file (snd e) || only_regular_files (snd e))
        entries
  | _, _ => false
  end.

Definition st_size (n : fsnode) : Z :=
  match os_path_getsize n with
  | Returns z => z
  | Errno _ => 0
  end.

(** The sum of the byte sizes of the regular files transitively contained
    under [n], as the specification words it: symbolic links are left
    out. *)
Fixpoint sum_of_file_sizes (n : fsnode) : Z :=
  match os_scandir n with
  | Returns entries =>
      fold_right
        (fun e acc =>
           (if os_path_islink (snd e) then 0
            else if os_path_isfile (snd e) then st_size (snd e)
            else sum_of_file_sizes (snd e)) + acc)
        0 entries
  | Errno _ => 0
  end.

(** Some file reached by the aggregate walk of [n] cannot be sized: it is
    listed by [os.walk] as a non-directory, it is not a link, and
    [os.path.getsize] raises on it. *)
Definition unsizable (n : fsnode) : bool :=
  negb (walk_is_dir n) && negb (os_path_islink n) &&
  match os_path_getsize n with
  | Errno _ => true
  | Returns _ => false
  end.

Fixpoint walk_hits_unsizable (n : fsnode) : bool :=
  match os_scandir n, scandir_next_error n with
  | Returns entries, None =>
      existsb
        (fun e =>
           unsizable (snd e) ||
           (walk_is_dir (snd e) && negb (os_path_islink (snd e)) &&
            walk_hits_unsizable (snd e)))
        entries
  | _, _ => false
  end.

(** Entries of the scanner *)

Definition is_directory_entry (e : DirectoryEntry) : bool :=
  match type e with
  | Some t => String.eqb t "directory"
  | None => false
  end.


(** The entry with every non-directory dict removed, at every depth. *)
Fixpoint without_files (e : DirectoryEntry) : DirectoryEntry :=
  {| name := name e;
     path := path e;
     type := type e;
     size := size e;
     contents :=
       match contents e with
       | Some sub =>
           Some (flat_map
                   (fun c => if is_directory_entry c then [without_files c]
                             else [])
                   sub)
       | None => None
       end |}.

Definition directories_of (es : list DirectoryEntry) : list DirectoryEntry :=
  flat_map (fun c => if is_directory_entry c then [without_files c] else [])
    es.

(** The path and the recorded size of every directory dict, in order. *)
Fixpoint directory_sizes (e : DirectoryEntry)
  : list (option string * option (option Z)) :=
  if is_directory_entry e then
    (path e, size e)
      :: match contents e with
         | Some sub => flat_map directory_sizes sub
         | None => []
         end
  else [].

(** A well-formed [DirectoryEntry]: the keys [name], [path], [type] and
    [size] are present, [type] is ['file'] or ['directory'], and [contents]
    is present exactly on directories, whose children are well-formed. *)
Fixpoint well_formed (e : DirectoryEntry) : bool :=
  match name e, path e, type e, size e with
  | Some _, Some _, Some t, Some _ =>
      match contents e with
      | Some sub => String.eqb t "directory" && forallb well_formed sub
      | None => String.eqb t "file"
      end
  | _, _, _, _ => false
  end.

(** Nodes of the hierarchy *)

Definition is_branch (n : VisualizationNode) : bool :=
  match children n, value n with
  | Some _, None => true
  | _, _ => false
  end.

(** Exactly one of the keys ["children"] and ["value"] is present, on the
    node and on every node below it. *)
Fixpoint one_of_children_value (n : VisualizationNode) : bool :=
  match children n, value n with
  | Some kids, None => forallb one_of_children_value kids
  | None, Some _ => true
  | _, _ => false
  end.

(** What the scanner's loop appends for one directory entry, and the
    entries the loop reaches: it stops at the first entry whose
    [is_dir()] raises. *)
Definition value_of {A} (default : A) (r : result A) : A :=
  match r with
  | Ok a => a
  | Raise _ => default
  end.

Definition dicts_of_entry (root : string) (folders_only : bool)
    (entry : string * fsnode) : list DirectoryEntry :=
  let entry_path := os_path_join root (fst entry) in
  match is_dir (snd entry) with
  | Returns true =>
      [ {| name := Some (fst entry);
           path := Some entry_path;
           type := Some "directory";
           size := Some (value_of None (get_size entry_path (snd entry)));
           contents :=
             Some (value_of []
                     (list_files_and_folders_recursive entry_path (snd entry)
                        folders_only)) |} ]
  | Returns false =>
      if folders_only then []
      else
        [ {| name := Some (fst entry);
             path := Some entry_path;
             type := Some "file";
             size := Some (value_of None (get_size entry_path (snd entry)));
             contents := None |} ]
  | Errno _ => []
  end.

Fixpoint reached (entries : list (string * fsnode))
  : list (string * fsnode) :=
  match entries with
  | [] => []
  | e :: rest =>
      match is_dir (snd e) with
      | Returns _ => e :: reached rest
      | Errno _ => []
      end
  end.

(** A computation that raises nothing but [OSError]. *)
Definition raises_only_OSError {A} (m : result A) : Prop :=
  match m with
  | Raise (KeyError _) => False
  | _ => True
  end.

(** The sum computed by the two nested loops of the directory branch. *)
Definition add_file_size (total_size : Z) (file : string * fsnode)
  : result Z :=
  let '(f, fp) := file in
  if negb (os_path_islink fp) then
    sz <- lift (os_path_getsize fp) ;;
    ret (total_size + sz)
  else ret total_size.

Definition add_directory_files (total_size : Z)
    (triple : string * list (string * fsnode) * list (string * fsnode))
  : result Z :=
  let '(dirpath, dirnames, filenames) := triple in
  for_acc add_file_size filenames total_size.

(** [m] raises an [OSError] when [b] holds and returns otherwise. *)
Definition raises_iff {A} (b : bool) (m : result A) : Prop :=
  if b then exists e, m = Raise (OSError e) else exists a, m = Ok a.

(** A directory [/srv/d] holding a file of 10 bytes and a directory
    [locked] of mode [r--]: [locked] can be listed, its file [f] cannot be
    stat'ed. *)
Definition srv_d_locked : fsnode := directory [("f", unstatable_file)].

Definition srv_d : fsnode :=
  directory [("a.txt", regular_file 10); ("locked", srv_d_locked)].

Definition srv : fsnode := directory [("d", srv_d)].

(** On a node that has children, one iteration appends one child, named by
    the path of the item, whose nodes all have exactly one of the two
    keys. *)
Definition appends_one_child (item : DirectoryEntry) : Prop :=
  forall node kids,
    children node = Some kids ->
    exists kid,
      sunburst_loop_body item node
      = Ok {| node_name := node_name node;
              children := Some (kids ++ [kid]);
              value := value node |}
      /\ one_of_children_value kid = true
      /\ path item = Some (node_name kid).

(** A root holding [a.txt] (10 bytes) and an empty directory [b]. *)
Definition scenario_file_and_empty_directory : fsnode :=
  directory [("a.txt", regular_file 10); ("b", directory [])].

(** A root holding a directory [c] with [d.txt] (5 bytes), and a loose file
    [e.txt]. *)
Definition scenario_nested : fsnode :=
  directory [("c", directory [("d.txt", regular_file 5)]);
             ("e.txt", regular_file 7)].

(** A root holding a file, a directory that cannot be listed, and a
    file. *)
Definition scenario_unreadable : fsnode :=
  directory [("a.txt", regular_file 10);
             ("secret", unreadable_directory);
             ("z.txt", regular_file 3)].

Definition file_dict (n p : string) (s : Z) : DirectoryEntry :=
  {| name := Some n; path := Some p; type := Some "file";
     size := Some (Some s); contents := None |}.

Definition directory_dict (n p : string) (s : option Z)
    (sub : list DirectoryEntry) : DirectoryEntry :=
  {| name := Some n; path := Some p; type := Some "directory";
     size := Some s; contents := Some sub |}.

Definition leaf (n : string) (v : Z) : VisualizationNode :=
  {| node_name := n; children := None; value := Some v |}.

Definition branch (n : string) (kids : list VisualizationNode)
  : VisualizationNode :=
  {| node_name := n; children := Some kids; value := None |}.

(** ** Further notions: the whole of the result *)

Section MapResult.
Context {A B : Type} (f : A -> result B).

(** [f] on every element in order, stopping at the first that raises. *)
Fixpoint map_result (l : list A) : result (list B) :=
  match l with
  | [] => Ok []
  | x :: rest =>
      y <- f x ;;
      ys <- map_result rest ;;
      ret (y :: ys)
  end.
End MapResult.

(** The node of the hierarchy that stands for one item: a branch for an
    item with a non-empty [contents], a leaf otherwise. *)
Fixpoint node_of_item (item : DirectoryEntry) : result VisualizationNode :=
  match contents item with
  | Some ((_ :: _) as item_contents) =>
      p <- getitem (path item) "path" ;;
      kids <- map_result node_of_item item_contents ;;
      ret (branch p kids)
  | _ =>
      p <- getitem (path item) "path" ;;
      ret (leaf p (size_or_0 (size item)))
  end.

(** The key ['path'] is present on the item and on every item the
    transformer descends to. *)
Fixpoint has_paths (item : DirectoryEntry) : bool :=
  match path item with
  | Some _ =>
      match contents item with
      | Some sub => forallb has_paths sub
      | None => true
      end
  | None => false
  end.

(** The sum of the values of the leaves of a node, which is what the chart
    shows for it ([d3.hierarchy(data).sum(d => d.value || 0)]). *)
Fixpoint leaf_total (n : VisualizationNode) : Z :=
  match value n with
  | Some v => v
  | None =>
      match children n with
      | Some kids => fold_right (fun k acc => leaf_total k + acc) 0 kids
      | None => 0
      end
  end.

Definition leaf_totals (kids : list VisualizationNode) : Z :=
  fold_right (fun k acc => leaf_total k + acc) 0 kids.

(** What the aggregate walk of a directory adds up: the size of every
    entry that is neither a directory nor a link, in the directory and in
    every sub-directory that is not a link and whose listing succeeds. *)
Fixpoint walk_total (n : fsnode) : Z :=
  match os_scandir n, scandir_next_error n with
  | Returns entries, None =>
      fold_right
        (fun e acc =>
           (if os_path_islink (snd e) then 0
            else if walk_is_dir (snd e) then walk_total (snd e)
            else st_size (snd e)) + acc)
        0 entries
  | _, _ => 0
  end.

(** The path of every dict is the path of its parent joined with its
    name. *)
Fixpoint paths_under (parent : string) (e : DirectoryEntry) : bool :=
  match name e, path e with
  | Some entry_name, Some p =>
      String.eqb p (os_path_join parent entry_name) &&
      match contents e with
      | Some sub => forallb (paths_under p) sub
      | None => true
      end
  | _, _ => false
  end.

(** The entries the scanner lists: the directories, and the others unless
    [folders_only]. *)
Definition listed (folders_only : bool) (entry : string * fsnode) : bool :=
  walk_is_dir (snd entry) || negb folders_only.

(** The size a dict carries, 0 when it is [None] or missing. *)
Definition listed_size (e : DirectoryEntry) : Z :=
  match size e with
  | Some (Some z) => z
  | _ => 0
  end.

Definition listed_sizes (es : list DirectoryEntry) : Z :=
  fold_right (fun e acc => listed_size e + acc) 0 es.

(** The size of every directory dict is the sum of the sizes of the dicts
    of its [contents]. *)
Fixpoint sizes_add_up (e : DirectoryEntry) : bool :=
  match contents e with
  | Some sub =>
      match size e with
      | Some (Some z) => (z =? listed_sizes sub) && forallb sizes_add_up sub
      | _ => false
      end
  | None => true
  end.

(** The total of the sizes of the directories without sub-directories, below
    [n]. *)
Fixpoint size_of_innermost_directories (n : fsnode) : Z :=
  match os_scandir n with
  | Returns entries =>
      fold_right
        (fun e acc =>
           (if walk_is_dir (snd e) then
              match os_scandir (snd e) with
              | Returns sub =>
                  if existsb (fun x => walk_is_dir (snd x)) sub
                  then size_of_innermost_directories (snd e)
                  else sum_of_file_sizes (snd e)
              | Errno _ => 0
              end
            else 0) + acc)
        0 entries
  | Errno _ => 0
  end.

(** The value [main] computes and hands to [create_html_sunburst_chart]:
    the scan of its [root_dir] with [folders_only = True], transformed.
    The messages it prints and the two files it writes are left out: this
    is [d3_data] in a run whose file writes succeed. *)
Definition main_d3_data (fs : fsnode) : result VisualizationNode :=
  let root_dir := "/var/www/html" in
  let folders_only := true in
  file_structure <-
    list_files_and_folders_recursive root_dir fs folders_only ;;
  d3_data <- transform_for_d3_sunburst file_structure root_dir ;;
  ret d3_data.

(** One iteration of the transformer's loop appends the node of its item,
    and raises what [node_of_item] raises. *)
Definition appends_node_of_item (item : DirectoryEntry) : Prop :=
  forall node kids,
    children node = Some kids ->
    sunburst_loop_body item node
    = (kid <- node_of_item item ;;
       ret {| node_name := node_name node;
              children := Some (kids ++ [kid]);
              value := value node |}).

(** [node_of_item] returns when the paths are there and raises
    [KeyError('path')] otherwise. *)
Definition returns_iff_has_paths (item : DirectoryEntry) : Prop :=
  if has_paths item then exists kid, node_of_item item = Ok kid
  else node_of_item item = Raise (KeyError "path").

(** A symbolic link whose target cannot be stat'ed (permission denied on
    the way to it): [DirEntry.is_dir] raises. *)
Definition inaccessible_link : fsnode :=
  {| is_dir := Errno PermissionError;
     os_path_isfile := false;
     os_path_isdir := false;
     os_path_islink := true;
     os_path_getsize := Errno PermissionError;
     os_scandir := Errno PermissionError;
     scandir_next_error := None |}.

(** A root holding a file, such a link, and a file. *)
Definition scenario_inaccessible_link : fsnode :=
  directory [("a.txt", regular_file 10);
             ("link", inaccessible_link);
             ("z.txt", regular_file 3)].

(** A directory whose listing fails after [a.txt]. *)
Definition scenario_listing_breaks : fsnode :=
  {| is_dir := Returns true;
     os_path_isfile := false;
     os_path_isdir := true;
     os_path_islink := false;
     os_path_getsize := Returns 4096;
     os_scandir := Returns [("a.txt", regular_file 10)];
     scandir_next_error := Some OtherOSError |}.

(** A directory holding a file, links, a socket and a directory that cannot
    be listed. *)
Definition scenario_mixed : fsnode :=
  directory [("f", regular_file 4);
             ("l", symlink_to_file 100);
             ("dangling", broken_symlink);
             ("s", socket);
             ("secret", unreadable_directory);
             ("sub", directory [("g", regular_file 6)])].

(** ** Induction principles for the nested types *)

Definition fsnode_children_all (P : fsnode -> Prop) (n : fsnode) : Prop :=
  match os_scandir n with
  | Returns entries => Forall (fun e => P (snd e)) entries
  | Errno _ => True
  end.

Definition fsnode_ind (P : fsnode -> Prop)
    (step : forall n, fsnode_children_all P n -> P n)
  : forall n, P n :=
  fix go (n : fsnode) : P n :=
    match n with
    | FsNode d f dd l g sc ne =>
        step (FsNode d f dd l g sc ne)
          (match sc as s
                 return fsnode_children_all P (FsNode d f dd l g s ne) with
           | Returns entries =>
               (fix all (es : list (string * fsnode))
                  : Forall (fun e => P (snd e)) es :=
                  match es with
                  | [] => Forall_nil _
                  | e :: rest => Forall_cons e (go (snd e)) (all rest)
                  end) entries
           | Errno _ => I
           end)
    end.

Definition entry_children_all (P : DirectoryEntry -> Prop)
    (e : DirectoryEntry) : Prop :=
  match contents e with
  | Some sub => Forall P sub
  | None => True
  end.

Definition DirectoryEntry_ind (P : DirectoryEntry -> Prop)
    (step : forall e, entry_children_all P e -> P e)
  : forall e, P e :=
  fix go (e : DirectoryEntry) : P e :=
    match e with
    | Entry n p t s c =>
        step (Entry n p t s c)
          (match c as c0 return entry_children_all P (Entry n p t s c0) with
           | Some sub =>
               (fix all (es : list DirectoryEntry) : Forall P es :=
                  match es with
                  | [] => Forall_nil _
                  | x :: rest => Forall_cons x (go x) (all rest)
                  end) sub
           | None => I
           end)
    end.

(** ** Loops *)

Lemma for_acc_app {A S} (body : S -> A -> result S) (l1 l2 : list A) (acc : S) :
  for_acc body (l1 ++ l2) acc
  = (acc' <- for_acc body l1 acc ;; for_acc body l2 acc').
Proof.
  revert acc; induction l1 as [|x l1 IH]; intros acc; simpl; [reflexivity|].
  destruct (body acc x); simpl; [apply IH | reflexivity].
Qed.

Lemma for_acc_raises_only_OSError {A S} (body : S -> A -> result S) l acc :
  (forall s x, raises_only_OSError (body s x)) ->
  raises_only_OSError (for_acc body l acc).
Proof.
  intros Hbody; revert acc; induction l as [|x l IH]; intros acc; simpl.
  - exact I.
  - specialize (Hbody acc x). destruct (body acc x) as [s'|e].
    + apply IH.
    + exact Hbody.
Qed.

Lemma lift_raises_only_OSError {A} (r : sys A) : raises_only_OSError (lift r).
Proof. destruct r; exact I. Qed.

Lemma bind_raises_only_OSError {A B} (m : result A) (k : A -> result B) :
  raises_only_OSError m ->
  (forall a, raises_only_OSError (k a)) ->
  raises_only_OSError (x <- m ;; k x).
Proof. destruct m as [a|e]; simpl; intros Hm Hk; [apply Hk | exact Hm]. Qed.

Lemma try_except_OSError_ok {A} (m : result A) (v : A) :
  raises_only_OSError m ->
  exists r, try_except_OSError m (ret v) = Ok r.
Proof.
  destruct m as [a|[e|k]]; simpl; intros H.
  - exists a; reflexivity.
  - exists v; reflexivity.
  - destruct H.
Qed.

(** ** [get_size] *)

Lemma get_size_unfold path n :
  get_size path n
  = try_except_OSError
      (if os_path_isfile n then
         sz <- lift (os_path_getsize n) ;; ret (Some sz)
       else if os_path_isdir n then
         total_size <- for_acc add_directory_files (os_walk path n) 0 ;;
         ret (Some total_size)
       else ret None)
      (ret None).
Proof. reflexivity. Qed.

Lemma add_file_size_raises_only_OSError s x :
  raises_only_OSError (add_file_size s x).
Proof.
  destruct x as [f fp]; unfold add_file_size.
  destruct (negb (os_path_islink fp)); [|exact I].
  apply bind_raises_only_OSError; [apply lift_raises_only_OSError|].
  intros; exact I.
Qed.

Lemma add_directory_files_raises_only_OSError s x :
  raises_only_OSError (add_directory_files s x).
Proof.
  destruct x as [[dirpath dirnames] filenames]; simpl.
  apply for_acc_raises_only_OSError, add_file_size_raises_only_OSError.
Qed.

Lemma get_size_never_raises path n : exists v, get_size path n = Ok v.
Proof.
  rewrite get_size_unfold. apply try_except_OSError_ok.
  destruct (os_path_isfile n).
  - apply bind_raises_only_OSError; [apply lift_raises_only_OSError|].
    intros; exact I.
  - destruct (os_path_isdir n); [|exact I].
    apply bind_raises_only_OSError; [|intros; exact I].
    apply for_acc_raises_only_OSError,
      add_directory_files_raises_only_OSError.
Qed.

(** ** [list_files_and_folders_recursive] *)

Lemma list_files_and_folders_recursive_unfold root n folders_only :
  list_files_and_folders_recursive root n folders_only
  = let '(structure, outcome) :=
      match os_scandir n with
      | Errno e => ([], Raise (OSError e))
      | Returns entries =>
          match
            for_in
              (scan_entry list_files_and_folders_recursive root folders_only)
              entries []
          with
          | (structure, Ok _) =>
              match scandir_next_error n with
              | Some e => (structure, Raise (OSError e))
              | None => (structure, Ok tt)
              end
          | (structure, Raise e) => (structure, Raise e)
          end
      end in
    match outcome with
    | Raise (OSError _) => Ok structure
    | Raise e => Raise e
    | Ok _ => Ok structure
    end.
Proof. destruct n; reflexivity. Qed.

(** One iteration appends [dicts_of_entry] and raises only when
    [is_dir()] does. *)
Lemma scan_entry_appends root folders_only structure entry :
  (exists sub,
     list_files_and_folders_recursive (os_path_join root (fst entry))
       (snd entry) folders_only = Ok sub) ->
  scan_entry list_files_and_folders_recursive root folders_only
    structure entry
  = (structure ++ dicts_of_entry root folders_only entry,
     _ <- lift (is_dir (snd entry)) ;; Ok tt).
Proof.
  intros [sub Hsub].
  unfold scan_entry, dicts_of_entry.
  destruct (is_dir (snd entry)) as [[|]|e]; simpl.
  - destruct (get_size_never_raises (os_path_join root (fst entry))
                (snd entry)) as [sz Hsz].
    rewrite Hsz, Hsub. reflexivity.
  - destruct folders_only; simpl.
    + rewrite app_nil_r. reflexivity.
    + destruct (get_size_never_raises (os_path_join root (fst entry))
                  (snd entry)) as [sz Hsz].
      rewrite Hsz. reflexivity.
  - rewrite app_nil_r. reflexivity.
Qed.

Lemma scan_loop_appends root folders_only entries :
  Forall
    (fun entry =>
       exists sub,
         list_files_and_folders_recursive (os_path_join root (fst entry))
           (snd entry) folders_only = Ok sub)
    entries ->
  forall structure,
  exists outcome,
    for_in (scan_entry list_files_and_folders_recursive root folders_only)
      entries structure
    = (structure ++ flat_map (dicts_of_entry root folders_only)
                      (reached entries),
       outcome)
    /\ raises_only_OSError outcome.
Proof.
  induction 1 as [|entry rest Hentry Hrest IH]; intros structure; simpl.
  - exists (Ok tt). rewrite app_nil_r. split; [reflexivity | exact I].
  - rewrite (scan_entry_appends _ _ _ _ Hentry).
    destruct (is_dir (snd entry)) as [b|e] eqn:Hd; simpl.
    + destruct (IH (structure ++ dicts_of_entry root folders_only entry))
        as [outcome [Hloop Honly]].
      exists outcome. rewrite Hloop, <- app_assoc. split; [reflexivity|assumption].
    + exists (Raise (OSError e)).
      unfold dicts_of_entry. rewrite Hd. split; [reflexivity | exact I].
Qed.

(** The scanner returns, and what it returns. *)
Lemma scan_returns n :
  forall root folders_only,
    list_files_and_folders_recursive root n folders_only
    = Ok match os_scandir n with
         | Returns entries =>
             flat_map (dicts_of_entry root folders_only) (reached entries)
         | Errno _ => []
         end.
Proof.
  induction n as [n IH] using fsnode_ind. intros root folders_only.
  rewrite list_files_and_folders_recursive_unfold.
  unfold fsnode_children_all in IH.
  destruct (os_scandir n) as [entries|e]; [|reflexivity].
  assert (Hsub :
    Forall
      (fun entry =>
         exists sub,
           list_files_and_folders_recursive (os_path_join root (fst entry))
             (snd entry) folders_only = Ok sub)
      entries).
  { eapply Forall_impl; [|exact IH]. intros entry Hentry.
    eexists. apply Hentry. }
  destruct (scan_loop_appends root folders_only entries Hsub [])
    as [outcome [Hloop Honly]].
  rewrite Hloop. simpl.
  destruct outcome as [u|[e|k]]; [|reflexivity | destruct Honly].
  destruct (scandir_next_error n); reflexivity.
Qed.

Lemma reached_app before after :
  Forall (fun e => exists b, is_dir (snd e) = Returns b) before ->
  reached (before ++ after) = before ++ reached after.
Proof.
  induction 1 as [|e before [b Hb] _ IH]; simpl; [reflexivity|].
  rewrite Hb, IH. reflexivity.
Qed.

Lemma reached_all entries :
  Forall (fun e => exists b, is_dir (snd e) = Returns b) entries ->
  reached entries = entries.
Proof.
  intros H. rewrite <- (app_nil_r entries) at 1.
  rewrite (reached_app _ _ H). simpl. apply app_nil_r.
Qed.

(** C2. The scanner never raises to its caller.  A directory whose listing
    cannot be read is scanned to the empty list; as an entry of its parent
    it gets a directory dict with [contents = []], between the dicts of the
    entries before it and those of the entries after it, which are what a
    scan of those siblings alone returns. *)
Theorem scanner_never_raises_unreadable_directory_is_empty :
  forall root n folders_only,
    (exists structure,
       list_files_and_folders_recursive root n folders_only = Ok structure)
    /\ (forall e,
          os_scandir n = Errno e ->
          list_files_and_folders_recursive root n folders_only = Ok [])
    /\ (forall before entry_name d after e,
          os_scandir n = Returns (before ++ (entry_name, d) :: after) ->
          Forall (fun x => exists b, is_dir (snd x) = Returns b) before ->
          is_dir d = Returns true ->
          os_scandir d = Errno e ->
          exists structure_before structure_after sz,
            list_files_and_folders_recursive root (directory before)
              folders_only = Ok structure_before
            /\ list_files_and_folders_recursive root (directory after)
                 folders_only = Ok structure_after
            /\ get_size (os_path_join root entry_name) d = Ok sz
            /\ list_files_and_folders_recursive root n folders_only
               = Ok (structure_before
                       ++ {| name := Some entry_name;
                             path := Some (os_path_join root entry_name);
                             type := Some "directory";
                             size := Some sz;
                             contents := Some [] |}
                       :: structure_after)).
Proof.
  intros root n folders_only. split; [|split].
  - eexists. apply scan_returns.
  - intros e He. rewrite scan_returns, He. reflexivity.
  - intros before entry_name d after e Hn Hbefore Hd He.
    destruct (get_size_never_raises (os_path_join root entry_name) d) as [sz Hsz].
    exists (flat_map (dicts_of_entry root folders_only) before),
           (flat_map (dicts_of_entry root folders_only) (reached after)), sz.
    split; [|split; [|split]].
    + rewrite scan_returns. simpl. rewrite (reached_all _ Hbefore).
      reflexivity.
    + rewrite scan_returns. reflexivity.
    + exact Hsz.
    + rewrite scan_returns, Hn, (reached_app _ _ Hbefore). simpl.
      rewrite Hd, flat_map_app. simpl.
      unfold dicts_of_entry at 2. simpl.
      rewrite Hd, Hsz, scan_returns, He. reflexivity.
Qed.

(** ** Folders only *)



Lemma directories_of_app es1 es2 :
  directories_of (es1 ++ es2) = directories_of es1 ++ directories_of es2.
Proof. unfold directories_of. apply flat_map_app. Qed.

Lemma scan_folders_only_is_directories_of n :
  forall root,
    value_of [] (list_files_and_folders_recursive root n true)
    = directories_of
        (value_of [] (list_files_and_folders_recursive root n false)).
Proof.
  induction n as [n IH] using fsnode_ind. intros root.
  rewrite !scan_returns. simpl.
  unfold fsnode_children_all in IH.
  destruct (os_scandir n) as [entries|e]; [|reflexivity].
  induction IH as [|entry rest Hentry _ IHrest]; simpl; [reflexivity|].
  destruct (is_dir (snd entry)) as [b|e] eqn:Hd; [|reflexivity].
  simpl. rewrite directories_of_app, IHrest. f_equal.
  unfold dicts_of_entry. rewrite Hd.
  destruct b; [|reflexivity].
  unfold directories_of. simpl. rewrite Hentry. reflexivity.
Qed.

Lemma flat_map_flat_map {A B C} (f : B -> list C) (g : A -> list B) l :
  flat_map f (flat_map g l) = flat_map (fun x => flat_map f (g x)) l.
Proof.
  induction l as [|x l IH]; simpl; [reflexivity|].
  rewrite flat_map_app, IH. reflexivity.
Qed.

Lemma flat_map_pointwise {A B} (f g : A -> list B) l :
  Forall (fun x => f x = g x) l -> flat_map f l = flat_map g l.
Proof.
  induction 1 as [|x l Hx _ IH]; simpl; [reflexivity|].
  rewrite Hx, IH. reflexivity.
Qed.

Lemma directory_sizes_without_files e :
  flat_map directory_sizes
    (if is_directory_entry e then [without_files e] else [])
  = directory_sizes e.
Proof.
  induction e as [e IH] using DirectoryEntry_ind.
  destruct e as [n p t s c]. unfold entry_children_all in IH. simpl in IH.
  unfold is_directory_entry at 1. simpl.
  destruct (match t with Some t0 => String.eqb t0 "directory" | None => false end)
    eqn:Ht.
  - simpl. unfold is_directory_entry. simpl. rewrite Ht, app_nil_r.
    f_equal. destruct c as [sub|]; [|reflexivity].
    rewrite flat_map_flat_map. apply flat_map_pointwise. exact IH.
  - simpl. unfold is_directory_entry. simpl. rewrite Ht. reflexivity.
Qed.

Lemma directory_sizes_directories_of es :
  flat_map directory_sizes (directories_of es) = flat_map directory_sizes es.
Proof.
  unfold directories_of. rewrite flat_map_flat_map.
  apply flat_map_pointwise, Forall_forall. intros e _.
  apply directory_sizes_without_files.
Qed.

(** C10. The flag changes which dicts are listed, not the sizes: the
    result with [folders_only = True] is the result with
    [folders_only = False] with the file dicts removed at every depth, so
    the directories of both runs are the same and carry the same sizes. *)
Theorem folders_only_does_not_change_sizes :
  forall root n,
  exists with_files only_folders,
    list_files_and_folders_recursive root n false = Ok with_files
    /\ list_files_and_folders_recursive root n true = Ok only_folders
    /\ only_folders = directories_of with_files
    /\ flat_map directory_sizes only_folders
       = flat_map directory_sizes with_files.
Proof.
  intros root n.
  pose proof (scan_folders_only_is_directories_of n root) as H.
  rewrite !scan_returns in H |- *. simpl in H.
  eexists; eexists. split; [reflexivity|]. split; [reflexivity|].
  split; [exact H|].
  rewrite H. apply directory_sizes_directories_of.
Qed.

(** ** Sizes *)

Lemma os_walk_unfold top n :
  os_walk top n
  = match os_scandir n, scandir_next_error n with
    | Returns ents, None =>
        (top,
         filter (fun e => walk_is_dir (snd e)) ents,
         filter (fun e => negb (walk_is_dir (snd e))) ents)
          :: flat_map
               (fun e =>
                  if (walk_is_dir (snd e)
                      && negb (os_path_islink (snd e)))%bool
                  then os_walk (os_path_join top (fst e)) (snd e)
                  else [])
               ents
    | _, _ => []
    end.
Proof. destruct n; reflexivity. Qed.

Lemma only_regular_files_unfold n :
  only_regular_files n
  = (plain_directory n &&
     match os_scandir n, scandir_next_error n with
     | Returns entries, None =>
         forallb
           (fun e =>
              readable_regular_file (snd e) || only_regular_files (snd e))
           entries
     | _, _ => false
     end)%bool.
Proof. destruct n; reflexivity. Qed.

Lemma sum_of_file_sizes_unfold n :
  sum_of_file_sizes n
  = match os_scandir n with
    | Returns entries =>
        fold_right
          (fun e acc =>
             (if os_path_islink (snd e) then 0
              else if os_path_isfile (snd e) then st_size (snd e)
              else sum_of_file_sizes (snd e)) + acc)
          0 entries
    | Errno _ => 0
    end.
Proof. destruct n; reflexivity. Qed.

Lemma walk_hits_unsizable_unfold n :
  walk_hits_unsizable n
  = match os_scandir n, scandir_next_error n with
    | Returns entries, None =>
        existsb
          (fun e =>
             unsizable (snd e) ||
             (walk_is_dir (snd e) && negb (os_path_islink (snd e)) &&
              walk_hits_unsizable (snd e)))%bool
          entries
    | _, _ => false
    end.
Proof. destruct n; reflexivity. Qed.

Lemma readable_regular_file_inv c :
  readable_regular_file c = true ->
  is_dir c = Returns false
  /\ os_path_isfile c = true
  /\ os_path_islink c = false
  /\ exists z, os_path_getsize c = Returns z.
Proof.
  unfold readable_regular_file.
  destruct (is_dir c) as [[|]|]; try discriminate.
  destruct (os_path_getsize c) as [z|]; try discriminate.
  destruct (os_path_isfile c), (os_path_isdir c), (os_path_islink c);
    try discriminate.
  intros _. repeat split. exists z; reflexivity.
Qed.

Lemma plain_directory_inv c :
  plain_directory c = true ->
  is_dir c = Returns true
  /\ os_path_isfile c = false
  /\ os_path_isdir c = true
  /\ os_path_islink c = false.
Proof.
  unfold plain_directory.
  destruct (is_dir c) as [[|]|]; try discriminate.
  destruct (os_path_isfile c), (os_path_isdir c), (os_path_islink c);
    try discriminate.
  intros _. repeat split.
Qed.

(** The walk of a directory holding only regular files adds up their
    sizes. *)
Lemma walk_sums_regular_files n :
  only_regular_files n = true ->
  forall top acc,
    for_acc add_directory_files (os_walk top n) acc
    = Ok (acc + sum_of_file_sizes n).
Proof.
  induction n as [n IH] using fsnode_ind.
  rewrite only_regular_files_unfold. intros Hn top acc.
  apply andb_prop in Hn. destruct Hn as [_ Hn].
  rewrite os_walk_unfold, sum_of_file_sizes_unfold.
  unfold fsnode_children_all in IH.
  destruct (os_scandir n) as [entries|e]; [|discriminate].
  destruct (scandir_next_error n); [discriminate|].
  cbn [for_acc add_directory_files].
  assert (Hsplit :
    exists files dirs,
      (forall a,
         for_acc add_file_size
           (filter (fun e => negb (walk_is_dir (snd e))) entries) a
         = Ok (a + files))
      /\ (forall a,
            for_acc add_directory_files
              (flat_map
                 (fun e =>
                    if (walk_is_dir (snd e)
                        && negb (os_path_islink (snd e)))%bool
                    then os_walk (os_path_join top (fst e)) (snd e)
                    else [])
                 entries) a
            = Ok (a + dirs))
      /\ fold_right
           (fun e a =>
              (if os_path_islink (snd e) then 0
               else if os_path_isfile (snd e) then st_size (snd e)
               else sum_of_file_sizes (snd e)) + a)
           0 entries
         = files + dirs).
  { clear acc. induction IH as [|[name c] rest Hc _ IHrest].
    - exists 0, 0. repeat split; intros; simpl; f_equal; lia.
    - cbn [forallb] in Hn. apply andb_prop in Hn. destruct Hn as [Hkind Hrest].
      destruct (IHrest Hrest) as [files [dirs [Hfiles [Hdirs Hsum]]]].
      cbn [snd fst] in *. cbn [filter flat_map fold_right snd fst].
      destruct (readable_regular_file c) eqn:Hfile.
      + apply readable_regular_file_inv in Hfile.
        destruct Hfile as [Hd [Hf [Hl [z Hz]]]].
        assert (Hw : walk_is_dir c = false)
          by (unfold walk_is_dir; rewrite Hd; reflexivity).
        rewrite !Hw. cbn [negb andb app].
        exists (z + files), dirs. split; [|split].
        * intros a. cbn [for_acc add_file_size]. rewrite Hl, Hz. simpl.
          rewrite Hfiles. f_equal. lia.
        * exact Hdirs.
        * rewrite Hl, Hf, Hsum. unfold st_size. rewrite Hz. lia.
      + simpl in Hkind.
        pose proof Hkind as Hplain.
        rewrite only_regular_files_unfold in Hplain.
        apply andb_prop in Hplain. destruct Hplain as [Hplain _].
        apply plain_directory_inv in Hplain.
        destruct Hplain as [Hd [Hf [_ Hl]]].
        assert (Hw : walk_is_dir c = true)
          by (unfold walk_is_dir; rewrite Hd; reflexivity).
        rewrite !Hw, Hl. cbn [negb andb].
        exists files, (sum_of_file_sizes c + dirs). split; [|split].
        * exact Hfiles.
        * intros a. rewrite for_acc_app, (Hc Hkind). simpl.
          rewrite Hdirs. f_equal. lia.
        * rewrite Hf, Hsum. lia. }
  destruct Hsplit as [files [dirs [Hfiles [Hdirs Hsum]]]].
  rewrite Hfiles, Hdirs, Hsum. f_equal. lia.
Qed.

(** A dict is listed for every entry the loop reaches and does not skip. *)
Lemma scan_lists_entry root n folders_only entries entry_name c :
  os_scandir n = Returns entries ->
  In (entry_name, c) (reached entries) ->
  is_dir c = Returns true \/ folders_only = false ->
  exists structure dict v,
    list_files_and_folders_recursive root n folders_only = Ok structure
    /\ In dict structure
    /\ name dict = Some entry_name
    /\ path dict = Some (os_path_join root entry_name)
    /\ get_size (os_path_join root entry_name) c = Ok v
    /\ size dict = Some v
    /\ is_directory_entry dict = walk_is_dir c.
Proof.
  intros Hn Hin Hkept.
  destruct (get_size_never_raises (os_path_join root entry_name) c)
    as [v Hv].
  rewrite scan_returns, Hn.
  assert (Hdict : exists dict,
            In dict (dicts_of_entry root folders_only (entry_name, c))
            /\ name dict = Some entry_name
            /\ path dict = Some (os_path_join root entry_name)
            /\ size dict = Some v
            /\ is_directory_entry dict = walk_is_dir c).
  { unfold dicts_of_entry, walk_is_dir. cbn [fst snd]. rewrite Hv.
    destruct (is_dir c) as [[|]|e] eqn:Hd.
    - eexists. split; [left; reflexivity|]. repeat split.
    - destruct Hkept as [Hk|Hk]; [discriminate|]. rewrite Hk.
      eexists. split; [left; reflexivity|]. repeat split.
    - destruct Hkept as [Hk|Hk]; [discriminate|].
      exfalso. clear -Hin Hd. induction entries as [|x rest IH]; [exact Hin|].
      simpl in Hin. destruct (is_dir (snd x)) eqn:Hx; [|exact Hin].
      destruct Hin as [Hin|Hin]; [|exact (IH Hin)].
      subst x. simpl in Hx. congruence. }
  destruct Hdict as [dict [Hin' [Hname [Hpath [Hsize Hkind]]]]].
  exists (flat_map (dicts_of_entry root folders_only) (reached entries)),
         dict, v.
  split; [reflexivity|]. split.
  - apply in_flat_map. exists (entry_name, c). split; assumption.
  - repeat split; assumption.
Qed.

(** C3. For a directory [D] all of whose transitive descendants are
    readable regular files (in listable sub-directories), [get_size]
    returns the exact sum of the sizes of the regular files under [D], and
    that sum is the size of the dict the scanner lists for [D]. *)
Theorem directory_size_is_sum_of_regular_files :
  forall D,
    only_regular_files D = true ->
    (forall path_of_D,
       get_size path_of_D D = Ok (Some (sum_of_file_sizes D)))
    /\ (forall root n folders_only entries entry_name,
          os_scandir n = Returns entries ->
          In (entry_name, D) (reached entries) ->
          exists structure dict,
            list_files_and_folders_recursive root n folders_only
            = Ok structure
            /\ In dict structure
            /\ path dict = Some (os_path_join root entry_name)
            /\ is_directory_entry dict = true
            /\ size dict = Some (Some (sum_of_file_sizes D))).
Proof.
  intros D HD.
  assert (Hsize : forall path_of_D,
            get_size path_of_D D = Ok (Some (sum_of_file_sizes D))).
  { intros path_of_D. rewrite get_size_unfold.
    pose proof HD as Hplain. rewrite only_regular_files_unfold in Hplain.
    apply andb_prop in Hplain. destruct Hplain as [Hplain _].
    apply plain_directory_inv in Hplain.
    destruct Hplain as [_ [Hf [Hdir _]]].
    rewrite Hf, Hdir, (walk_sums_regular_files D HD). reflexivity. }
  split; [exact Hsize|].
  intros root n folders_only entries entry_name Hn Hin.
  pose proof HD as Hplain. rewrite only_regular_files_unfold in Hplain.
  apply andb_prop in Hplain. destruct Hplain as [Hplain _].
  apply plain_directory_inv in Hplain. destruct Hplain as [Hd _].
  destruct (scan_lists_entry root n folders_only entries entry_name D Hn Hin
              (or_introl Hd))
    as [structure [dict [v [Hscan [Hdict [_ [Hpath [Hv [Hsz Hkind]]]]]]]]].
  exists structure, dict. rewrite Hsize in Hv. injection Hv as <-.
  repeat split; try assumption.
  rewrite Hkind. unfold walk_is_dir. rewrite Hd. reflexivity.
Qed.

(** C9. On a path that is neither a regular file nor a directory
    [get_size] returns [None], the value of its [except] branch. *)
Theorem size_of_other_objects_is_None :
  forall path n,
    os_path_isfile n = false ->
    os_path_isdir n = false ->
    get_size path n = Ok None
    /\ forall e,
         get_size path n = try_except_OSError (Raise (OSError e)) (ret None).
Proof.
  intros path n Hf Hd. rewrite get_size_unfold, Hf, Hd.
  split; [|intros e]; reflexivity.
Qed.

(** ** A size probe that fails *)

Lemma existsb_orb {A} (f g : A -> bool) l :
  existsb (fun x => f x || g x) l = (existsb f l || existsb g l)%bool.
Proof.
  induction l as [|x l IH]; simpl; [reflexivity|].
  rewrite IH. destruct (f x), (g x), (existsb f l); reflexivity.
Qed.

(** The loop over the non-directories of one listing fails exactly when
    one of them cannot be sized. *)
Lemma files_loop_raises_iff entries :
  forall acc,
    raises_iff
      (existsb (fun e => unsizable (snd e)) entries)
      (for_acc add_file_size
         (filter (fun e => negb (walk_is_dir (snd e))) entries) acc).
Proof.
  induction entries as [|[f c] rest IH]; intros acc; cbn [existsb filter snd].
  - exists acc; reflexivity.
  - unfold unsizable at 1.
    destruct (walk_is_dir c); cbn [negb andb orb]; [apply IH|].
    cbn [for_acc add_file_size].
    destruct (os_path_islink c); cbn [negb andb orb]; [apply IH|].
    destruct (os_path_getsize c) as [z|e]; cbn [lift bind ret orb].
    + apply IH.
    + exists e; reflexivity.
Qed.

(** The aggregate walk fails exactly when it reaches a file that cannot be
    sized. *)
Lemma walk_raises_iff n :
  forall top acc,
    raises_iff (walk_hits_unsizable n)
      (for_acc add_directory_files (os_walk top n) acc).
Proof.
  induction n as [n IH] using fsnode_ind. intros top acc.
  rewrite os_walk_unfold, walk_hits_unsizable_unfold.
  unfold fsnode_children_all in IH.
  destruct (os_scandir n) as [entries|e]; [|exists acc; reflexivity].
  destruct (scandir_next_error n); [exists acc; reflexivity|].
  rewrite existsb_orb. cbn [for_acc add_directory_files].
  pose proof (files_loop_raises_iff entries acc) as Hfiles.
  destruct (existsb (fun e => unsizable (snd e)) entries); cbn [orb].
  - destruct Hfiles as [e He]. rewrite He. exists e; reflexivity.
  - destruct Hfiles as [acc' Hacc']. rewrite Hacc'. clear Hacc' acc.
    revert acc'.
    induction IH as [|[f c] rest Hc _ IHrest]; intros acc;
      cbn [existsb flat_map fst snd].
    + exists acc; reflexivity.
    + rewrite for_acc_app.
      destruct (walk_is_dir c && negb (os_path_islink c))%bool; cbn [andb orb].
      * specialize (Hc (os_path_join top f) acc). cbv beta in Hc.
        unfold raises_iff in Hc. cbn [snd] in Hc.
        destruct (walk_hits_unsizable c); cbn [orb].
        -- destruct Hc as [e He]. rewrite He. exists e; reflexivity.
        -- destruct Hc as [a Ha]. rewrite Ha. apply IHrest.
      * apply IHrest.
Qed.

(** C1, as stated, fails: the probe of [/srv/d/locked/f] fails, and the
    sizes of the enclosing directories [locked] and [d] are [None] too,
    where the claim has the numbers 0 and 10. *)
Lemma failed_probe_nulls_enclosing_directories :
  get_size "/srv/d/locked/f" unstatable_file = Ok None
  /\ get_size "/srv/d/locked" srv_d_locked = Ok None
  /\ get_size "/srv/d" srv_d = Ok None
  /\ ~ (exists total, get_size "/srv/d" srv_d = Ok (Some total))
  /\ list_files_and_folders_recursive "/srv" srv false
     = Ok [ {| name := Some "d";
               path := Some "/srv/d";
               type := Some "directory";
               size := Some None;
               contents :=
                 Some [ {| name := Some "a.txt";
                           path := Some "/srv/d/a.txt";
                           type := Some "file";
                           size := Some (Some 10);
                           contents := None |};
                        {| name := Some "locked";
                           path := Some "/srv/d/locked";
                           type := Some "directory";
                           size := Some None;
                           contents :=
                             Some [ {| name := Some "f";
                                       path := Some "/srv/d/locked/f";
                                       type := Some "file";
                                       size := Some None;
                                       contents := None |} ] |} ] |} ].
Proof.
  repeat split; try reflexivity.
  intros [total H]. vm_compute in H. discriminate H.
Qed.

(** C1, amended.  A failing size probe is caught by the handler that wraps
    the whole of [get_size]: the call never raises and returns [None].
    For a directory this happens exactly when its aggregate walk reaches a
    file (not a link) that [os.path.getsize] cannot size; the walk is
    abandoned there, so the size of the directory is [None], and so is the
    size of every enclosing directory whose walk enters it.  The scan
    itself goes on: the entry is listed with the size [get_size] returned
    and the scanner returns. *)
Theorem size_probe_failure_is_caught_by_get_size :
  forall root n,
    (exists v, get_size root n = Ok v)
    /\ (forall e,
          os_path_isfile n = true ->
          os_path_getsize n = Errno e ->
          get_size root n = Ok None)
    /\ (os_path_isfile n = false ->
        os_path_isdir n = true ->
        walk_hits_unsizable n = true ->
        get_size root n = Ok None)
    /\ (os_path_isfile n = false ->
        os_path_isdir n = true ->
        walk_hits_unsizable n = false ->
        exists total, get_size root n = Ok (Some total))
    /\ (forall entries entry_name c,
          os_scandir n = Returns entries ->
          scandir_next_error n = None ->
          In (entry_name, c) entries ->
          unsizable c = true
          \/ (walk_is_dir c = true /\ os_path_islink c = false
              /\ walk_hits_unsizable c = true) ->
          walk_hits_unsizable n = true)
    /\ (forall folders_only entries entry_name c,
          os_scandir n = Returns entries ->
          In (entry_name, c) (reached entries) ->
          is_dir c = Returns true \/ folders_only = false ->
          exists structure dict v,
            list_files_and_folders_recursive root n folders_only
            = Ok structure
            /\ In dict structure
            /\ path dict = Some (os_path_join root entry_name)
            /\ get_size (os_path_join root entry_name) c = Ok v
            /\ size dict = Some v).
Proof.
  intros root n.
  split; [apply get_size_never_raises|].
  split; [|split; [|split; [|split]]].
  - intros e Hf He. rewrite get_size_unfold, Hf, He. reflexivity.
  - intros Hf Hd Hhit. rewrite get_size_unfold, Hf, Hd.
    pose proof (walk_raises_iff n root 0) as H. rewrite Hhit in H.
    destruct H as [e He]. rewrite He. reflexivity.
  - intros Hf Hd Hhit. rewrite get_size_unfold, Hf, Hd.
    pose proof (walk_raises_iff n root 0) as H. rewrite Hhit in H.
    destruct H as [total Htotal]. rewrite Htotal. exists total. reflexivity.
  - intros entries entry_name c Hn Hnext Hin Hc.
    rewrite walk_hits_unsizable_unfold, Hn, Hnext.
    apply existsb_exists. exists (entry_name, c). split; [exact Hin|].
    cbn [snd]. destruct Hc as [Hc|[Hw [Hl Hc]]].
    + rewrite Hc. reflexivity.
    + rewrite Hw, Hl, Hc. apply orb_true_r.
  - intros folders_only entries entry_name c Hn Hin Hkept.
    destruct (scan_lists_entry root n folders_only entries entry_name c
                Hn Hin Hkept)
      as [structure [dict [v [Hscan [Hdict [_ [Hpath [Hv [Hsz _]]]]]]]]].
    exists structure, dict, v. repeat split; assumption.
Qed.

(** ** [transform_for_d3_sunburst] *)


(** The equations of the source function. *)
Lemma sunburst_loop_body_eq item node :
  sunburst_loop_body item node
  = sunburst_item transform_for_d3_sunburst node item.
Proof. destruct item; reflexivity. Qed.


Lemma loop_appends_children data :
  Forall appends_one_child data ->
  forall node kids,
    children node = Some kids ->
    exists new_kids,
      for_acc (fun node item => sunburst_loop_body item node) data node
      = Ok {| node_name := node_name node;
              children := Some (kids ++ new_kids);
              value := value node |}
      /\ forallb one_of_children_value new_kids = true
      /\ Forall2 (fun item kid => path item = Some (node_name kid))
           data new_kids.
Proof.
  induction 1 as [|item rest Hitem _ IH]; intros node kids Hkids.
  - exists []. rewrite app_nil_r. simpl. rewrite <- Hkids.
    destruct node; repeat split. constructor.
  - destruct (Hitem node kids Hkids) as [kid [Hstep [Hone Hname]]].
    cbn [for_acc]. rewrite Hstep.
    destruct (IH {| node_name := node_name node;
                    children := Some (kids ++ [kid]);
                    value := value node |} (kids ++ [kid]) eq_refl)
      as [more [Hloop [Hall Hnames]]].
    exists (kid :: more). rewrite Hloop. cbn [node_name value].
    rewrite <- app_assoc. cbn [app forallb]. rewrite Hone, Hall.
    repeat split. constructor; assumption.
Qed.

Lemma well_formed_appends_one_child item :
  well_formed item = true -> appends_one_child item.
Proof.
  induction item as [item IH] using DirectoryEntry_ind.
  destruct item as [n p t s c]. unfold entry_children_all in IH.
  cbn [contents] in IH. cbn [well_formed name path type size contents].
  destruct n as [n|]; [|discriminate].
  destruct p as [p|]; [|discriminate].
  destruct t as [t|]; [|discriminate].
  destruct s as [s|]; [|discriminate].
  intros Hwf node kids Hkids.
  rewrite sunburst_loop_body_eq. unfold sunburst_item.
  cbn [contents path size getitem bind].
  destruct c as [[|first rest]|].
  - eexists. unfold append_child. rewrite Hkids. cbn [getitem bind ret].
    repeat split.
  - apply andb_prop in Hwf. destruct Hwf as [_ Hwf].
    assert (Hsub : Forall appends_one_child (first :: rest)).
    { clear -IH Hwf. induction IH as [|x l Hx _ IHl]; [constructor|].
      cbn [forallb] in Hwf. apply andb_prop in Hwf. destruct Hwf as [Hx' Hl].
      constructor; [exact (Hx Hx') | exact (IHl Hl)]. }
    destruct (loop_appends_children _ Hsub
                {| node_name := p; children := Some []; value := None |}
                [] eq_refl)
      as [sub_kids [Hloop [Hall _]]].
    unfold transform_for_d3_sunburst. cbv zeta. rewrite Hloop.
    cbn [bind node_name children value app].
    unfold append_child, set_name. rewrite Hkids.
    cbn [getitem bind ret children value].
    eexists. split; [reflexivity|]. split; [exact Hall | reflexivity].
  - eexists. unfold append_child. rewrite Hkids. cbn [getitem bind ret].
    repeat split.
Qed.

Lemma forallb_Forall_well_formed data :
  forallb well_formed data = true -> Forall appends_one_child data.
Proof.
  intros H. apply Forall_forall. intros item Hin.
  apply well_formed_appends_one_child.
  rewrite forallb_forall in H. exact (H item Hin).
Qed.

Lemma transform_well_formed data parent_name :
  forallb well_formed data = true ->
  exists kids,
    transform_for_d3_sunburst data parent_name
    = Ok {| node_name := parent_name; children := Some kids; value := None |}
    /\ forallb one_of_children_value kids = true
    /\ Forall2 (fun item kid => path item = Some (node_name kid)) data kids.
Proof.
  intros Hwf.
  destruct (loop_appends_children data (forallb_Forall_well_formed _ Hwf)
              {| node_name := parent_name; children := Some [];
                 value := None |} [] eq_refl)
    as [kids H].
  exists kids. exact H.
Qed.

(** C4. For a well-formed sequence the transformer returns a tree in which
    every node has exactly one of ["children"] and ["value"]; its root has
    ["children"] and is named by the given root name. *)
Theorem transformer_nodes_have_children_xor_value :
  forall data root_name,
    forallb well_formed data = true ->
    exists node,
      transform_for_d3_sunburst data root_name = Ok node
      /\ one_of_children_value node = true
      /\ is_branch node = true
      /\ node_name node = root_name.
Proof.
  intros data root_name Hwf.
  destruct (transform_well_formed data root_name Hwf)
    as [kids [Hnode [Hall _]]].
  eexists. split; [exact Hnode|]. repeat split. exact Hall.
Qed.

(** C5. The transformer returns on every well-formed sequence; on the
    empty sequence it returns the branch node of the given name with no
    children. *)
Theorem transformer_is_total :
  (forall data root_name,
     forallb well_formed data = true ->
     exists node, transform_for_d3_sunburst data root_name = Ok node)
  /\ (forall root_name,
        transform_for_d3_sunburst [] root_name
        = Ok {| node_name := root_name; children := Some [];
                value := None |}).
Proof.
  split.
  - intros data root_name Hwf.
    destruct (transform_well_formed data root_name Hwf) as [kids [Hnode _]].
    eexists. exact Hnode.
  - reflexivity.
Qed.




(** The dicts of the scanner are well-formed, so the transformer returns on
    them. *)
Lemma scan_well_formed n :
  forall root folders_only,
    forallb well_formed
      (value_of []
         (list_files_and_folders_recursive root n folders_only)) = true.
Proof.
  induction n as [n IH] using fsnode_ind. intros root folders_only.
  rewrite scan_returns. simpl.
  unfold fsnode_children_all in IH.
  destruct (os_scandir n) as [entries|e]; [|reflexivity].
  induction IH as [|entry rest Hentry _ IHrest]; simpl; [reflexivity|].
  destruct (is_dir (snd entry)) as [b|e] eqn:Hd; [|reflexivity].
  simpl. rewrite forallb_app, IHrest, andb_true_r.
  unfold dicts_of_entry. rewrite Hd.
  destruct b.
  - simpl. rewrite Hentry. reflexivity.
  - destruct folders_only; reflexivity.
Qed.

Lemma scan_then_transform_returns root n folders_only :
  exists structure node,
    list_files_and_folders_recursive root n folders_only = Ok structure
    /\ transform_for_d3_sunburst structure root = Ok node.
Proof.
  pose proof (scan_well_formed n root folders_only) as Hwf.
  rewrite scan_returns in Hwf |- *. simpl in Hwf.
  destruct (transform_well_formed _ root Hwf) as [kids [Hnode _]].
  eexists; eexists. split; [reflexivity | exact Hnode].
Qed.

(** ** The scenarios of the specification *)

Example scan_file_and_empty_directory :
  list_files_and_folders_recursive "/r" scenario_file_and_empty_directory
    false
  = Ok [ file_dict "a.txt" "/r/a.txt" 10;
         directory_dict "b" "/r/b" (Some 0) [] ].
Proof. reflexivity. Qed.

Example transform_file_and_empty_directory :
  transform_for_d3_sunburst
    [ file_dict "a.txt" "/r/a.txt" 10;
      directory_dict "b" "/r/b" (Some 0) [] ] "/r"
  = Ok (branch "/r" [ leaf "/r/a.txt" 10; leaf "/r/b" 0 ]).
Proof. reflexivity. Qed.

Example scan_nested :
  list_files_and_folders_recursive "/r" scenario_nested false
  = Ok [ directory_dict "c" "/r/c" (Some 5)
           [ file_dict "d.txt" "/r/c/d.txt" 5 ];
         file_dict "e.txt" "/r/e.txt" 7 ].
Proof. reflexivity. Qed.

Example transform_nested :
  transform_for_d3_sunburst
    [ directory_dict "c" "/r/c" (Some 5)
        [ file_dict "d.txt" "/r/c/d.txt" 5 ] ] "/r"
  = Ok (branch "/r" [ branch "/r/c" [ leaf "/r/c/d.txt" 5 ] ]).
Proof. reflexivity. Qed.

Example scan_nested_folders_only :
  list_files_and_folders_recursive "/r" scenario_nested true
  = Ok [ directory_dict "c" "/r/c" (Some 5) [] ].
Proof. reflexivity. Qed.

Example scan_unreadable :
  list_files_and_folders_recursive "/r" scenario_unreadable false
  = Ok [ file_dict "a.txt" "/r/a.txt" 10;
         directory_dict "secret" "/r/secret" (Some 0) [];
         file_dict "z.txt" "/r/z.txt" 3 ].
Proof. reflexivity. Qed.

Example size_of_broken_symlink :
  get_size "/r/dangling" broken_symlink = Ok None.
Proof. reflexivity. Qed.

Example size_skips_links :
  get_size "/r/d"
    (directory [("f", regular_file 4); ("l", symlink_to_file 100);
                ("dangling", broken_symlink); ("s", socket)])
  = Ok (Some 4).
Proof. reflexivity. Qed.

(** The iterator of [os.scandir] fails after [a.txt]: the scanner returns
    what it has, the aggregate walk skips the directory. *)
Example scan_listing_breaks :
  list_files_and_folders_recursive "/r"
    (directory
       [("d", {| is_dir := Returns true;
                 os_path_isfile := false;
                 os_path_isdir := true;
                 os_path_islink := false;
                 os_path_getsize := Returns 4096;
                 os_scandir := Returns [("a.txt", regular_file 10)];
                 scandir_next_error := Some OtherOSError |})])
    false
  = Ok [ directory_dict "d" "/r/d" (Some 0)
           [ file_dict "a.txt" "/r/d/a.txt" 10 ] ].
Proof. reflexivity. Qed.

(** An item without ['path'] makes the transformer raise [KeyError]. *)
Example transform_item_without_path :
  transform_for_d3_sunburst
    [ {| name := Some "x"; path := None; type := Some "file";
         size := Some (Some 1); contents := None |} ] "/r"
  = Raise (KeyError "path").
Proof. reflexivity. Qed.

Example join_examples :
  os_path_join "/var/www/html" "img" = "/var/www/html/img"
  /\ os_path_join "/" "etc" = "/etc"
  /\ os_path_join "" "etc" = "etc".
Proof. repeat split. Qed.

(** ** Instances of the theorems *)

Lemma size_probe_failure_is_caught_by_get_size_witness :
  os_path_isfile srv_d = false
  /\ os_path_isdir srv_d = true
  /\ walk_hits_unsizable srv_d = true
  /\ get_size "/srv/d" srv_d = Ok None.
Proof.
  split; [reflexivity|]. split; [reflexivity|]. split; [reflexivity|].
  destruct (size_probe_failure_is_caught_by_get_size "/srv/d" srv_d)
    as [_ [_ [Hhit _]]].
  exact (Hhit eq_refl eq_refl eq_refl).
Defined.

Lemma scanner_never_raises_unreadable_directory_is_empty_witness :
  os_scandir unreadable_directory = Errno PermissionError
  /\ exists structure_before structure_after sz,
       list_files_and_folders_recursive "/r"
         (directory [("a.txt", regular_file 10)]) false
       = Ok structure_before
       /\ list_files_and_folders_recursive "/r"
            (directory [("z.txt", regular_file 3)]) false
          = Ok structure_after
       /\ get_size (os_path_join "/r" "secret") unreadable_directory = Ok sz
       /\ list_files_and_folders_recursive "/r" scenario_unreadable false
          = Ok (structure_before
                  ++ {| name := Some "secret";
                        path := Some (os_path_join "/r" "secret");
                        type := Some "directory";
                        size := Some sz;
                        contents := Some [] |}
                  :: structure_after).
Proof.
  split; [reflexivity|].
  destruct (scanner_never_raises_unreadable_directory_is_empty
              "/r" scenario_unreadable false) as [_ [_ Hsiblings]].
  apply (Hsiblings [("a.txt", regular_file 10)] "secret"
           unreadable_directory [("z.txt", regular_file 3)]
           PermissionError).
  - reflexivity.
  - constructor; [exists false; reflexivity | constructor].
  - reflexivity.
  - reflexivity.
Defined.

Lemma directory_size_is_sum_of_regular_files_witness :
  only_regular_files
    (directory [("c", directory [("d.txt", regular_file 5)]);
                ("e.txt", regular_file 7)]) = true
  /\ get_size "/r"
       (directory [("c", directory [("d.txt", regular_file 5)]);
                   ("e.txt", regular_file 7)])
     = Ok (Some 12).
Proof.
  split; [reflexivity|].
  exact (proj1 (directory_size_is_sum_of_regular_files scenario_nested
                  eq_refl) "/r").
Defined.

Lemma transformer_nodes_have_children_xor_value_witness :
  forallb well_formed
    [ directory_dict "c" "/r/c" (Some 5)
        [ file_dict "d.txt" "/r/c/d.txt" 5 ];
      file_dict "e.txt" "/r/e.txt" 7 ] = true
  /\ exists node,
       transform_for_d3_sunburst
         [ directory_dict "c" "/r/c" (Some 5)
             [ file_dict "d.txt" "/r/c/d.txt" 5 ];
           file_dict "e.txt" "/r/e.txt" 7 ] "/r" = Ok node
       /\ one_of_children_value node = true
       /\ is_branch node = true
       /\ node_name node = "/r".
Proof.
  split; [reflexivity|].
  apply transformer_nodes_have_children_xor_value. reflexivity.
Defined.

Lemma transformer_is_total_witness :
  forallb well_formed
    [ file_dict "a.txt" "/r/a.txt" 10;
      directory_dict "b" "/r/b" None [] ] = true
  /\ exists node,
       transform_for_d3_sunburst
         [ file_dict "a.txt" "/r/a.txt" 10;
           directory_dict "b" "/r/b" None [] ] "/r" = Ok node.
Proof.
  split; [reflexivity|].
  apply (proj1 transformer_is_total). reflexivity.
Defined.


Lemma size_of_other_objects_is_None_witness :
  os_path_isfile socket = false
  /\ os_path_isdir socket = false
  /\ get_size "/run/app.sock" socket = Ok None.
Proof.
  split; [reflexivity|]. split; [reflexivity|].
  exact (proj1 (size_of_other_objects_is_None "/run/app.sock" socket
                  eq_refl eq_refl)).
Defined.

(** ** The scanner: shape, paths and order of the result *)

(** X1. The scanner returns dicts that are well-formed at every depth: the
    keys [name], [path], [type] and [size] are set, [type] is ['file'] or
    ['directory'], and [contents] is set on directories only. *)
Theorem scanner_output_is_well_formed :
  forall root n folders_only,
  exists structure,
    list_files_and_folders_recursive root n folders_only = Ok structure
    /\ forallb well_formed structure = true.
Proof.
  intros root n folders_only.
  pose proof (scan_well_formed n root folders_only) as H.
  rewrite scan_returns in H |- *. simpl in H.
  eexists. split; [reflexivity | exact H].
Qed.

Lemma scan_paths_under n :
  forall root folders_only,
    forallb (paths_under root)
      (value_of []
         (list_files_and_folders_recursive root n folders_only)) = true.
Proof.
  induction n as [n IH] using fsnode_ind. intros root folders_only.
  rewrite scan_returns. simpl.
  unfold fsnode_children_all in IH.
  destruct (os_scandir n) as [entries|e]; [|reflexivity].
  induction IH as [|entry rest Hentry _ IHrest]; simpl; [reflexivity|].
  destruct (is_dir (snd entry)) as [b|e] eqn:Hd; [|reflexivity].
  simpl. rewrite forallb_app, IHrest, andb_true_r.
  unfold dicts_of_entry. rewrite Hd.
  destruct b.
  - simpl. rewrite String.eqb_refl, Hentry. reflexivity.
  - destruct folders_only; [reflexivity|].
    simpl. rewrite String.eqb_refl. reflexivity.
Qed.

(** X2. In the result of the scanner the path of every dict is
    [os.path.join] of the path of its parent (the root, for the dicts of
    the first level) and its own name. *)
Theorem scanner_paths_extend_the_parent_path :
  forall root n folders_only,
  exists structure,
    list_files_and_folders_recursive root n folders_only = Ok structure
    /\ forallb (paths_under root) structure = true.
Proof.
  intros root n folders_only.
  pose proof (scan_paths_under n root folders_only) as H.
  rewrite scan_returns in H |- *. simpl in H.
  eexists. split; [reflexivity | exact H].
Qed.

Lemma dicts_of_entry_names root folders_only entry b :
  is_dir (snd entry) = Returns b ->
  map name (dicts_of_entry root folders_only entry)
  = (if listed folders_only entry then [Some (fst entry)] else [])
  /\ map is_directory_entry (dicts_of_entry root folders_only entry)
     = (if listed folders_only entry then [walk_is_dir (snd entry)] else []).
Proof.
  intros Hd. unfold dicts_of_entry, listed, walk_is_dir. rewrite Hd.
  destruct b, folders_only; split; reflexivity.
Qed.

Lemma dicts_of_reached_names root folders_only entries :
  map name (flat_map (dicts_of_entry root folders_only) (reached entries))
  = map (fun e => Some (fst e))
      (filter (listed folders_only) (reached entries))
  /\ map is_directory_entry
       (flat_map (dicts_of_entry root folders_only) (reached entries))
     = map (fun e => walk_is_dir (snd e))
         (filter (listed folders_only) (reached entries)).
Proof.
  induction entries as [|entry rest [IHname IHkind]]; [split; reflexivity|].
  cbn [reached].
  destruct (is_dir (snd entry)) as [b|e] eqn:Hd; [|split; reflexivity].
  destruct (dicts_of_entry_names root folders_only entry b Hd)
    as [Hname Hkind].
  cbn [flat_map filter]. rewrite !map_app, IHname, IHkind, Hname, Hkind.
  destruct (listed folders_only entry); split; reflexivity.
Qed.

(** X3. The scanner keeps the order of the listing: the names of the dicts
    it returns are the names of the entries it reaches, the directories and,
    unless [folders_only], the others, in the order of [os.scandir]; a dict
    has type ['directory'] exactly when [is_dir()] answered [True]. *)
Theorem scanner_lists_entries_in_order :
  forall root n folders_only entries,
    os_scandir n = Returns entries ->
    exists structure,
      list_files_and_folders_recursive root n folders_only = Ok structure
      /\ map name structure
         = map (fun e => Some (fst e))
             (filter (listed folders_only) (reached entries))
      /\ map is_directory_entry structure
         = map (fun e => walk_is_dir (snd e))
             (filter (listed folders_only) (reached entries)).
Proof.
  intros root n folders_only entries Hn.
  rewrite scan_returns, Hn. eexists. split; [reflexivity|].
  apply dicts_of_reached_names.
Qed.

(** X4. When [is_dir()] raises on an entry, the handler around the loop
    ends the listing of that directory: the scanner returns the dicts of
    the entries before it, and nothing for that entry and the ones after
    it. *)
Theorem is_dir_error_ends_the_listing :
  forall root n folders_only before entry_name c after e,
    os_scandir n = Returns (before ++ (entry_name, c) :: after) ->
    Forall (fun x => exists b, is_dir (snd x) = Returns b) before ->
    is_dir c = Errno e ->
    list_files_and_folders_recursive root n folders_only
    = list_files_and_folders_recursive root (directory before) folders_only.
Proof.
  intros root n folders_only before entry_name c after e Hn Hbefore Hc.
  rewrite !scan_returns, Hn. cbn [os_scandir directory].
  rewrite (reached_app _ _ Hbefore), (reached_all _ Hbefore).
  cbn [reached snd]. rewrite Hc, app_nil_r. reflexivity.
Qed.

(** X5. When the iterator of [os.scandir] raises after the entries it could
    read, the scanner keeps the dicts of those entries, as if the listing
    had ended there; the aggregate walk of [get_size] drops the directory,
    whose size is then 0. *)
Theorem scandir_iterator_error_keeps_the_entries_read :
  forall root d folders_only entries e,
    os_scandir d = Returns entries ->
    scandir_next_error d = Some e ->
    list_files_and_folders_recursive root d folders_only
    = list_files_and_folders_recursive root (directory entries) folders_only
    /\ (os_path_isfile d = false ->
        os_path_isdir d = true ->
        get_size root d = Ok (Some 0)).
Proof.
  intros root d folders_only entries e Hd He. split.
  - rewrite !scan_returns, Hd. reflexivity.
  - intros Hf Hdir. rewrite get_size_unfold, Hf, Hdir, os_walk_unfold, Hd, He.
    reflexivity.
Qed.

(** ** The size of a directory in general *)

Lemma walk_total_unfold n :
  walk_total n
  = match os_scandir n, scandir_next_error n with
    | Returns entries, None =>
        fold_right
          (fun e acc =>
             (if os_path_islink (snd e) then 0
              else if walk_is_dir (snd e) then walk_total (snd e)
              else st_size (snd e)) + acc)
          0 entries
    | _, _ => 0
    end.
Proof. destruct n; reflexivity. Qed.

Lemma walk_adds_walk_total n :
  walk_hits_unsizable n = false ->
  forall top acc,
    for_acc add_directory_files (os_walk top n) acc
    = Ok (acc + walk_total n).
Proof.
  induction n as [n IH] using fsnode_ind.
  rewrite walk_hits_unsizable_unfold. intros Hn top acc.
  rewrite os_walk_unfold, walk_total_unfold.
  unfold fsnode_children_all in IH.
  destruct (os_scandir n) as [entries|e];
    [|cbn [for_acc]; f_equal; lia].
  destruct (scandir_next_error n); [cbn [for_acc]; f_equal; lia|].
  cbn [for_acc add_directory_files].
  assert (Hsplit :
    exists files dirs,
      (forall a,
         for_acc add_file_size
           (filter (fun e => negb (walk_is_dir (snd e))) entries) a
         = Ok (a + files))
      /\ (forall a,
            for_acc add_directory_files
              (flat_map
                 (fun e =>
                    if (walk_is_dir (snd e)
                        && negb (os_path_islink (snd e)))%bool
                    then os_walk (os_path_join top (fst e)) (snd e)
                    else [])
                 entries) a
            = Ok (a + dirs))
      /\ fold_right
           (fun e a =>
              (if os_path_islink (snd e) then 0
               else if walk_is_dir (snd e) then walk_total (snd e)
               else st_size (snd e)) + a)
           0 entries
         = files + dirs).
  { clear acc. induction IH as [|[f c] rest Hc _ IHrest].
    - exists 0, 0. repeat split; intros; simpl; f_equal; lia.
    - cbn [existsb snd] in Hn. apply orb_false_elim in Hn.
      destruct Hn as [Hhere Hrest].
      apply orb_false_elim in Hhere. destruct Hhere as [Hfile Hsub].
      destruct (IHrest Hrest) as [files [dirs [Hfiles [Hdirs Hsum]]]].
      cbn [snd fst] in Hc.
      cbn [filter flat_map fold_right snd fst]. rewrite Hsum.
      unfold unsizable in Hfile.
      destruct (walk_is_dir c) eqn:Hw; cbn [negb andb] in *.
      + destruct (os_path_islink c) eqn:Hl; cbn [negb andb app] in *.
        * exists files, dirs. split; [exact Hfiles|].
          split; [exact Hdirs | lia].
        * exists files, (walk_total c + dirs). split; [exact Hfiles|].
          split; [|lia].
          intros a. rewrite for_acc_app, (Hc Hsub). cbn [bind].
          rewrite Hdirs. f_equal. lia.
      + destruct (os_path_islink c) eqn:Hl; cbn [negb andb app] in *.
        * exists files, dirs. split; [|split; [exact Hdirs | lia]].
          intros a. cbn [for_acc add_file_size]. rewrite Hl. cbn [negb ret].
          apply Hfiles.
        * destruct (os_path_getsize c) as [z|e] eqn:Hz; [|discriminate].
          exists (z + files), dirs. split; [|split; [exact Hdirs|]].
          -- intros a. cbn [for_acc add_file_size]. rewrite Hl, Hz.
             cbn [negb lift bind ret]. rewrite Hfiles. f_equal. lia.
          -- unfold st_size. rewrite Hz. lia. }
  destruct Hsplit as [files [dirs [Hfiles [Hdirs Hsum]]]].
  rewrite Hfiles, Hdirs, Hsum. f_equal. lia.
Qed.

(** X6. As long as its walk reaches no file that cannot be sized, the size
    [get_size] returns for a directory is the sum of the sizes of all the
    entries that are neither directories nor links, in the directory and in
    its sub-directories (an entry on which [is_dir()] raises counts as a
    non-directory, as in [os.walk]); symbolic links, sub-directories that
    are links and sub-directories whose listing fails add nothing. *)
Theorem directory_size_is_the_walk_total :
  forall path_of_n n,
    os_path_isfile n = false ->
    os_path_isdir n = true ->
    walk_hits_unsizable n = false ->
    get_size path_of_n n = Ok (Some (walk_total n)).
Proof.
  intros path_of_n n Hf Hd Hhit.
  rewrite get_size_unfold, Hf, Hd, (walk_adds_walk_total n Hhit).
  reflexivity.
Qed.

(** ** The transformer as a map *)

Lemma node_of_item_unfold item :
  node_of_item item
  = match contents item with
    | Some ((_ :: _) as item_contents) =>
        p <- getitem (path item) "path" ;;
        kids <- map_result node_of_item item_contents ;;
        ret (branch p kids)
    | _ =>
        p <- getitem (path item) "path" ;;
        ret (leaf p (size_or_0 (size item)))
    end.
Proof. destruct item as [n p t s [[|x l]|]]; reflexivity. Qed.

Lemma loop_is_map_result data :
  Forall appends_node_of_item data ->
  forall node kids,
    children node = Some kids ->
    for_acc (fun node item => sunburst_loop_body item node) data node
    = (new_kids <- map_result node_of_item data ;;
       ret {| node_name := node_name node;
              children := Some (kids ++ new_kids);
              value := value node |}).
Proof.
  induction 1 as [|item rest Hitem _ IH]; intros node kids Hkids.
  - cbn [for_acc map_result bind ret]. rewrite app_nil_r, <- Hkids.
    destruct node; reflexivity.
  - cbn [for_acc map_result]. rewrite (Hitem node kids Hkids).
    destruct (node_of_item item) as [kid|e]; cbn [bind ret]; [|reflexivity].
    rewrite (IH {| node_name := node_name node;
                   children := Some (kids ++ [kid]);
                   value := value node |} (kids ++ [kid]) eq_refl).
    destruct (map_result node_of_item rest) as [more|e]; cbn [bind ret];
      [|reflexivity].
    cbn [node_name value]. rewrite <- app_assoc. reflexivity.
Qed.

Lemma every_item_appends_its_node item : appends_node_of_item item.
Proof.
  induction item as [item IH] using DirectoryEntry_ind.
  intros node kids Hkids.
  rewrite sunburst_loop_body_eq, node_of_item_unfold.
  unfold sunburst_item, entry_children_all in *.
  destruct (contents item) as [[|first rest]|].
  - destruct (path item); cbn [getitem bind ret]; [|reflexivity].
    unfold append_child. rewrite Hkids. reflexivity.
  - destruct (path item) as [p|]; cbn [getitem bind ret]; [|reflexivity].
    unfold transform_for_d3_sunburst. cbv zeta.
    rewrite (loop_is_map_result _ IH
               {| node_name := p; children := Some []; value := None |}
               [] eq_refl).
    destruct (map_result node_of_item (first :: rest)) as [sub_kids|e];
      cbn [bind ret]; [|reflexivity].
    unfold append_child, set_name, branch. rewrite Hkids. reflexivity.
  - destruct (path item); cbn [getitem bind ret]; [|reflexivity].
    unfold append_child. rewrite Hkids. reflexivity.
Qed.

Lemma transform_is_map_result data parent_name :
  transform_for_d3_sunburst data parent_name
  = (kids <- map_result node_of_item data ;; ret (branch parent_name kids)).
Proof.
  unfold transform_for_d3_sunburst. cbv zeta.
  rewrite (loop_is_map_result data
             (proj2 (Forall_forall _ _)
                (fun item _ => every_item_appends_its_node item))
             {| node_name := parent_name; children := Some [];
                value := None |} [] eq_refl).
  reflexivity.
Qed.

(** X7. The loop of the transformer, with its appends, is a map: the result
    is the branch of the given name over the nodes of the items, in order,
    where the node of an item with a non-empty [contents] is the branch of
    its path over the nodes of its contents and the node of any other item
    is the leaf of its path and size; and the transformer raises exactly
    when that map does. *)
Theorem transformer_maps_items_to_nodes :
  forall data parent_name,
    transform_for_d3_sunburst data parent_name
    = (kids <- map_result node_of_item data ;; ret (branch parent_name kids)).
Proof. exact transform_is_map_result. Qed.

Lemma map_result_app {A B} (f : A -> result B) l1 l2 :
  map_result f (l1 ++ l2)
  = (ys1 <- map_result f l1 ;;
     ys2 <- map_result f l2 ;;
     ret (ys1 ++ ys2)).
Proof.
  induction l1 as [|x l1 IH]; cbn [app map_result bind ret].
  - destruct (map_result f l2); reflexivity.
  - destruct (f x) as [y|e]; cbn [bind]; [|reflexivity].
    rewrite IH. destruct (map_result f l1) as [ys1|e]; cbn [bind];
      [|reflexivity].
    destruct (map_result f l2); reflexivity.
Qed.

Lemma transform_returns_children data parent_name kids :
  transform_for_d3_sunburst data parent_name = Ok (branch parent_name kids) ->
  map_result node_of_item data = Ok kids.
Proof.
  rewrite transform_is_map_result.
  destruct (map_result node_of_item data) as [kids'|e]; cbn [bind ret];
    [|discriminate].
  unfold branch. intros H. injection H as ->. reflexivity.
Qed.

(** C6. In the result of the transformer, a directory item whose [contents]
    is the empty list stands as a leaf, at the place of the item among the
    children: a node without ["children"], named by the path of the item,
    whose value is the size of the item, or 0 when the size is [None] or
    missing.  A file item of the same path and size at that place gives
    the same result. *)
Theorem empty_directory_becomes_leaf :
  forall before item after root_name p kids_before kids_after,
    contents item = Some [] ->
    path item = Some p ->
    transform_for_d3_sunburst before root_name
    = Ok (branch root_name kids_before) ->
    transform_for_d3_sunburst after root_name
    = Ok (branch root_name kids_after) ->
    transform_for_d3_sunburst (before ++ item :: after) root_name
    = Ok {| node_name := root_name;
            children :=
              Some (kids_before
                      ++ {| node_name := p;
                            children := None;
                            value := Some (size_or_0 (size item)) |}
                      :: kids_after);
            value := None |}
    /\ (forall z, size item = Some (Some z) -> size_or_0 (size item) = z)
    /\ (size item = Some None \/ size item = None ->
        size_or_0 (size item) = 0)
    /\ (forall file_item,
          contents file_item = None ->
          path file_item = Some p ->
          size file_item = size item ->
          transform_for_d3_sunburst (before ++ file_item :: after) root_name
          = transform_for_d3_sunburst (before ++ item :: after) root_name).
Proof.
  intros before item after root_name p kids_before kids_after
    Hcontents Hpath Hbefore Hafter.
  apply transform_returns_children in Hbefore.
  apply transform_returns_children in Hafter.
  split; [|split; [|split]].
  - rewrite transform_is_map_result, map_result_app, Hbefore.
    cbn [bind map_result].
    rewrite node_of_item_unfold, Hcontents, Hpath, Hafter. reflexivity.
  - intros z Hz. rewrite Hz. unfold size_or_0.
    destruct (Z.eqb_spec z 0) as [->|]; reflexivity.
  - intros [H|H]; rewrite H; reflexivity.
  - intros file_item Hc Hp Hs.
    rewrite !transform_is_map_result, !map_result_app, Hbefore.
    cbn [bind map_result].
    rewrite (node_of_item_unfold file_item), (node_of_item_unfold item),
      Hc, Hp, Hs, Hcontents, Hpath.
    reflexivity.
Qed.

Lemma map_result_returns_iff_has_paths data :
  Forall returns_iff_has_paths data ->
  if forallb has_paths data
  then exists kids, map_result node_of_item data = Ok kids
  else map_result node_of_item data = Raise (KeyError "path").
Proof.
  induction 1 as [|item rest Hitem _ IH]; cbn [forallb map_result].
  - exists []; reflexivity.
  - unfold returns_iff_has_paths in Hitem.
    destruct (has_paths item); cbn [andb].
    + destruct Hitem as [kid ->]. cbn [bind].
      destruct (forallb has_paths rest).
      * destruct IH as [kids ->]. eexists; reflexivity.
      * rewrite IH. reflexivity.
    + rewrite Hitem. reflexivity.
Qed.

Lemma node_of_item_returns_iff_has_paths item : returns_iff_has_paths item.
Proof.
  induction item as [item IH] using DirectoryEntry_ind.
  destruct item as [n p t s c]. unfold entry_children_all in IH.
  cbn [contents] in IH. unfold returns_iff_has_paths.
  rewrite node_of_item_unfold. cbn [has_paths path contents size].
  destruct p as [p|].
  - destruct c as [[|first rest]|]; cbn [getitem bind ret forallb].
    + eexists; reflexivity.
    + pose proof (map_result_returns_iff_has_paths _ IH) as Hsub.
      cbn [forallb] in Hsub.
      destruct (has_paths first && forallb has_paths rest)%bool.
      * destruct Hsub as [kids ->]. eexists; reflexivity.
      * rewrite Hsub. reflexivity.
    + eexists; reflexivity.
  - destruct c as [[|first rest]|]; reflexivity.
Qed.

(** X8. The only key the transformer needs is ['path'], on the items it
    visits: when it is there the transformer returns, whatever the other
    keys are; when it is missing somewhere the transformer raises
    [KeyError('path')], and it raises nothing else. *)
Theorem transformer_raises_KeyError_path_or_returns :
  forall data parent_name,
    (forallb has_paths data = true ->
     exists node, transform_for_d3_sunburst data parent_name = Ok node)
    /\ (forallb has_paths data = false ->
        transform_for_d3_sunburst data parent_name
        = Raise (KeyError "path")).
Proof.
  intros data parent_name. rewrite transform_is_map_result.
  pose proof (map_result_returns_iff_has_paths data
                (proj2 (Forall_forall _ _)
                   (fun item _ => node_of_item_returns_iff_has_paths item)))
    as H.
  split; intros Hpaths; rewrite Hpaths in H.
  - destruct H as [kids ->]. eexists; reflexivity.
  - rewrite H. reflexivity.
Qed.

(** ** Trees of regular files: the sizes in the result and in the chart *)

(** Induction on a directory that holds only regular files: every entry is
    a readable regular file, or a directory of the same kind for which the
    property holds. *)
Lemma only_regular_files_ind (P : fsnode -> Prop) :
  (forall n entries,
     plain_directory n = true ->
     os_scandir n = Returns entries ->
     scandir_next_error n = None ->
     Forall
       (fun e =>
          readable_regular_file (snd e) = true
          \/ (only_regular_files (snd e) = true /\ P (snd e)))
       entries ->
     P n) ->
  forall n, only_regular_files n = true -> P n.
Proof.
  intros step. induction n as [n IH] using fsnode_ind.
  rewrite only_regular_files_unfold. intros Hn.
  apply andb_prop in Hn. destruct Hn as [Hplain Hn].
  unfold fsnode_children_all in IH.
  destruct (os_scandir n) as [entries|e] eqn:Hscan; [|discriminate].
  destruct (scandir_next_error n) eqn:Hnext; [discriminate|].
  apply (step n entries Hplain Hscan Hnext). clear Hscan.
  induction IH as [|entry rest Hentry _ IHrest]; [constructor|].
  cbn [forallb] in Hn. apply andb_prop in Hn. destruct Hn as [Hkind Hrest].
  constructor; [|exact (IHrest Hrest)].
  destruct (readable_regular_file (snd entry)); [left; reflexivity|].
  right. split; [exact Hkind | exact (Hentry Hkind)].
Qed.

Lemma get_size_only_regular_files n p :
  only_regular_files n = true ->
  get_size p n = Ok (Some (sum_of_file_sizes n)).
Proof.
  intros Hn. rewrite get_size_unfold.
  pose proof Hn as Hplain. rewrite only_regular_files_unfold in Hplain.
  apply andb_prop in Hplain. destruct Hplain as [Hplain _].
  apply plain_directory_inv in Hplain. destruct Hplain as [_ [Hf [Hd _]]].
  rewrite Hf, Hd, (walk_sums_regular_files n Hn). reflexivity.
Qed.

Lemma size_or_0_number z : size_or_0 (Some (Some z)) = z.
Proof. unfold size_or_0. destruct (Z.eqb_spec z 0) as [->|]; reflexivity. Qed.

(** The dict of a readable regular file, and the dict of a directory of
    regular files. *)
Lemma dicts_of_regular_file root folders_only entry_name c :
  readable_regular_file c = true ->
  os_path_islink c = false
  /\ os_path_isfile c = true
  /\ walk_is_dir c = false
  /\ dicts_of_entry root folders_only (entry_name, c)
     = if folders_only then []
       else [ {| name := Some entry_name;
                 path := Some (os_path_join root entry_name);
                 type := Some "file";
                 size := Some (Some (st_size c));
                 contents := None |} ].
Proof.
  intros Hc. apply readable_regular_file_inv in Hc.
  destruct Hc as [Hd [Hf [Hl [z Hz]]]].
  unfold dicts_of_entry, walk_is_dir, st_size. cbn [fst snd].
  rewrite get_size_unfold, Hd, Hf, Hz. repeat split; assumption.
Qed.

Lemma dicts_of_regular_directory root folders_only entry_name c :
  only_regular_files c = true ->
  os_path_islink c = false
  /\ os_path_isfile c = false
  /\ walk_is_dir c = true
  /\ dicts_of_entry root folders_only (entry_name, c)
     = [ {| name := Some entry_name;
            path := Some (os_path_join root entry_name);
            type := Some "directory";
            size := Some (Some (sum_of_file_sizes c));
            contents :=
              Some (value_of []
                      (list_files_and_folders_recursive
                         (os_path_join root entry_name) c folders_only)) |} ].
Proof.
  intros Hc. pose proof Hc as Hplain.
  rewrite only_regular_files_unfold in Hplain.
  apply andb_prop in Hplain. destruct Hplain as [Hplain _].
  apply plain_directory_inv in Hplain. destruct Hplain as [Hd [Hf [_ Hl]]].
  unfold dicts_of_entry, walk_is_dir. cbn [fst snd].
  rewrite Hd, (get_size_only_regular_files c _ Hc).
  repeat split; assumption.
Qed.

Lemma reached_cons_answered entry rest b :
  is_dir (snd entry) = Returns b ->
  reached (entry :: rest) = entry :: reached rest.
Proof. intros H. cbn [reached]. rewrite H. reflexivity. Qed.

Lemma regular_entry_answers c :
  readable_regular_file c = true \/ only_regular_files c = true ->
  exists b, is_dir c = Returns b.
Proof.
  intros [Hc|Hc].
  - apply readable_regular_file_inv in Hc. destruct Hc as [Hd _].
    exists false; exact Hd.
  - rewrite only_regular_files_unfold in Hc.
    apply andb_prop in Hc. destruct Hc as [Hc _].
    apply plain_directory_inv in Hc. destruct Hc as [Hd _].
    exists true; exact Hd.
Qed.

Lemma scan_sizes_add_up n :
  only_regular_files n = true ->
  forall root,
    listed_sizes
      (value_of [] (list_files_and_folders_recursive root n false))
    = sum_of_file_sizes n
    /\ forallb sizes_add_up
         (value_of [] (list_files_and_folders_recursive root n false))
       = true.
Proof.
  revert n. apply (only_regular_files_ind
    (fun n => forall root,
       listed_sizes
         (value_of [] (list_files_and_folders_recursive root n false))
       = sum_of_file_sizes n
       /\ forallb sizes_add_up
            (value_of [] (list_files_and_folders_recursive root n false))
          = true)).
  intros n entries _ Hscan _ Hentries root.
  rewrite scan_returns, sum_of_file_sizes_unfold, Hscan. cbn [value_of].
  clear Hscan.
  induction Hentries as [|[f c] rest Hc _ IHrest]; [split; reflexivity|].
  cbn [snd] in Hc. destruct IHrest as [IHsum IHall].
  assert (Hans : exists b, is_dir (snd (f, c)) = Returns b).
  { apply regular_entry_answers. destruct Hc as [Hc|[Hc _]]; auto. }
  destruct Hans as [b Hb]. rewrite (reached_cons_answered _ _ _ Hb).
  cbn [flat_map fold_right snd].
  destruct Hc as [Hc|[Hc IHc]].
  - destruct (dicts_of_regular_file root false f c Hc)
      as [Hl [Hf [_ ->]]].
    rewrite Hl, Hf. cbn [app listed_sizes fold_right forallb].
    fold (listed_sizes
            (flat_map (dicts_of_entry root false) (reached rest))).
    rewrite IHsum, IHall. split; reflexivity.
  - destruct (dicts_of_regular_directory root false f c Hc)
      as [Hl [Hf [_ ->]]].
    rewrite Hl, Hf. cbn [app listed_sizes fold_right forallb].
    fold (listed_sizes
            (flat_map (dicts_of_entry root false) (reached rest))).
    destruct (IHc (os_path_join root f)) as [Hsum Hall].
    rewrite IHsum, IHall. cbn [sizes_add_up contents size listed_size].
    rewrite Hsum, Hall, Z.eqb_refl. split; reflexivity.
Qed.

(** X10. For a directory that holds only regular files, scanned with the
    files listed, the sizes of the result add up: the size of every
    directory dict is the sum of the sizes of the dicts of its [contents],
    and the sizes of the first level add up to the size of the files under
    the root. *)
Theorem scanned_sizes_add_up :
  forall root n,
    only_regular_files n = true ->
    exists structure,
      list_files_and_folders_recursive root n false = Ok structure
      /\ forallb sizes_add_up structure = true
      /\ listed_sizes structure = sum_of_file_sizes n.
Proof.
  intros root n Hn.
  destruct (scan_sizes_add_up n Hn root) as [Hsum Hall].
  rewrite scan_returns in Hsum, Hall |- *. cbn [value_of] in Hsum, Hall.
  eexists. split; [reflexivity|]. split; assumption.
Qed.

Lemma leaf_total_branch p kids :
  leaf_total (branch p kids) = leaf_totals kids.
Proof. reflexivity. Qed.

Lemma leaf_total_leaf p v : leaf_total (leaf p v) = v.
Proof. reflexivity. Qed.

(** The node of a directory dict: a leaf holding the size when the dict
    has no contents, the branch over the nodes of its contents otherwise. *)
Lemma node_of_directory_dict entry_name p total sub kids :
  map_result node_of_item sub = Ok kids ->
  exists kid,
    node_of_item {| name := Some entry_name;
                    path := Some p;
                    type := Some "directory";
                    size := Some (Some total);
                    contents := Some sub |} = Ok kid
    /\ leaf_total kid
       = match sub with
         | [] => total
         | _ :: _ => leaf_totals kids
         end.
Proof.
  intros Hmap. rewrite node_of_item_unfold.
  cbn [contents path size getitem bind].
  destruct sub as [|x l].
  - eexists. split; [reflexivity|].
    rewrite leaf_total_leaf. apply size_or_0_number.
  - rewrite Hmap. cbn [bind ret]. eexists. split; [reflexivity|].
    apply leaf_total_branch.
Qed.

Lemma chart_total_with_files n :
  only_regular_files n = true ->
  forall root,
  exists kids,
    map_result node_of_item
      (value_of [] (list_files_and_folders_recursive root n false))
    = Ok kids
    /\ leaf_totals kids = sum_of_file_sizes n.
Proof.
  revert n. apply (only_regular_files_ind
    (fun n => forall root,
     exists kids,
       map_result node_of_item
         (value_of [] (list_files_and_folders_recursive root n false))
       = Ok kids
       /\ leaf_totals kids = sum_of_file_sizes n)).
  intros n entries _ Hscan _ Hentries root.
  rewrite scan_returns, sum_of_file_sizes_unfold, Hscan. cbn [value_of].
  clear Hscan.
  induction Hentries as [|[f c] rest Hc _ IHrest];
    [exists []; split; reflexivity|].
  cbn [snd] in Hc. destruct IHrest as [more [IHmap IHsum]].
  assert (Hans : exists b, is_dir (snd (f, c)) = Returns b).
  { apply regular_entry_answers. destruct Hc as [Hc|[Hc _]]; auto. }
  destruct Hans as [b Hb]. rewrite (reached_cons_answered _ _ _ Hb).
  cbn [flat_map fold_right snd].
  destruct Hc as [Hc|[Hc IHc]].
  - destruct (dicts_of_regular_file root false f c Hc)
      as [Hl [Hf [_ ->]]].
    rewrite Hl, Hf. cbn [app map_result].
    rewrite node_of_item_unfold. cbn [contents path size getitem bind].
    rewrite IHmap. cbn [bind ret]. eexists. split; [reflexivity|].
    cbn [leaf_totals fold_right]. fold (leaf_totals more).
    rewrite leaf_total_leaf, size_or_0_number, IHsum. reflexivity.
  - destruct (dicts_of_regular_directory root false f c Hc)
      as [Hl [Hf [_ ->]]].
    rewrite Hl, Hf. cbn [app map_result].
    destruct (IHc (os_path_join root f)) as [kids_c [Hmap_c Hsum_c]].
    destruct (node_of_directory_dict f (os_path_join root f)
                (sum_of_file_sizes c) _ kids_c Hmap_c)
      as [kid [-> Hkid]].
    rewrite IHmap. cbn [bind ret]. eexists. split; [reflexivity|].
    cbn [leaf_totals fold_right]. fold (leaf_totals more).
    rewrite Hkid, IHsum.
    destruct (value_of []
                (list_files_and_folders_recursive (os_path_join root f) c
                   false));
      [reflexivity | rewrite Hsum_c; reflexivity].
Qed.

(** X9. For a directory that holds only regular files, scanned with the
    files listed and then transformed, the values of the leaves of the
    hierarchy add up to the size of the files under the root, which is also
    what [get_size] returns for the root. *)
Theorem chart_total_is_the_size_of_the_files :
  forall root n,
    only_regular_files n = true ->
    exists structure node,
      list_files_and_folders_recursive root n false = Ok structure
      /\ transform_for_d3_sunburst structure root = Ok node
      /\ leaf_total node = sum_of_file_sizes n
      /\ get_size root n = Ok (Some (leaf_total node)).
Proof.
  intros root n Hn.
  destruct (chart_total_with_files n Hn root) as [kids [Hmap Hsum]].
  rewrite scan_returns in Hmap |- *. cbn [value_of] in Hmap.
  eexists. exists (branch root kids). split; [reflexivity|].
  rewrite transform_is_map_result, Hmap. split; [reflexivity|].
  rewrite leaf_total_branch, Hsum. split; [reflexivity|].
  apply get_size_only_regular_files. exact Hn.
Qed.

(** ** [main]: the scan of folders, transformed *)

Lemma dicts_of_reached_paths root folders_only entries :
  map path (flat_map (dicts_of_entry root folders_only) (reached entries))
  = map (fun e => Some (os_path_join root (fst e)))
      (filter (listed folders_only) (reached entries)).
Proof.
  induction entries as [|entry rest IH]; [reflexivity|].
  cbn [reached].
  destruct (is_dir (snd entry)) as [b|e] eqn:Hd; [|reflexivity].
  cbn [flat_map filter]. rewrite map_app, IH.
  unfold dicts_of_entry, listed, walk_is_dir. rewrite Hd.
  destruct b, folders_only; reflexivity.
Qed.

Lemma names_of_children data kids (names : list string) :
  Forall2 (fun item kid => path item = Some (node_name kid)) data kids ->
  map path data = map Some names ->
  map node_name kids = names.
Proof.
  intros H. revert names.
  induction H as [|item kid data kids Hpath _ IH]; intros names Hnames.
  - destruct names; [reflexivity | discriminate].
  - destruct names as [|p names]; [discriminate|].
    cbn [map] in Hnames |- *. injection Hnames as Hp Hrest.
    rewrite Hpath in Hp. injection Hp as ->.
    rewrite (IH names Hrest). reflexivity.
Qed.

(** X11. Whatever the filesystem holds at [/var/www/html], the value [main]
    computes is a branch named [/var/www/html] whose nodes all have exactly
    one of ["children"] and ["value"]; its children are named by the paths
    of the sub-directories the scanner reaches, in the order of the
    listing, and there is none when the root cannot be listed: nothing is
    raised and the chart is empty. *)
Theorem main_returns_the_hierarchy_of_folders :
  forall fs,
  exists kids,
    main_d3_data fs = Ok (branch "/var/www/html" kids)
    /\ forallb one_of_children_value kids = true
    /\ match os_scandir fs with
       | Returns entries =>
           map node_name kids
           = map (fun e => os_path_join "/var/www/html" (fst e))
               (filter (listed true) (reached entries))
       | Errno _ => kids = []
       end.
Proof.
  intros fs. unfold main_d3_data. cbv zeta.
  pose proof (scan_well_formed fs "/var/www/html" true) as Hwf.
  rewrite scan_returns in Hwf |- *. cbn [value_of] in Hwf. cbn [bind].
  destruct (transform_well_formed _ "/var/www/html" Hwf)
    as [kids [Hnode [Hone Hnames]]].
  exists kids. rewrite Hnode. split; [reflexivity|]. split; [exact Hone|].
  destruct (os_scandir fs) as [entries|e].
  - apply (names_of_children _ _ _ Hnames).
    rewrite dicts_of_reached_paths, map_map. reflexivity.
  - inversion Hnames. reflexivity.
Qed.

(** In a directory of regular files scanned for folders only, the dicts are
    those of the sub-directories: there is one exactly when an entry is a
    directory. *)
Lemma folders_only_contents_empty_iff root entries :
  Forall
    (fun e =>
       readable_regular_file (snd e) = true
       \/ only_regular_files (snd e) = true)
    entries ->
  if existsb (fun x => walk_is_dir (snd x)) entries
  then exists d ds,
         flat_map (dicts_of_entry root true) (reached entries) = d :: ds
  else flat_map (dicts_of_entry root true) (reached entries) = [].
Proof.
  induction 1 as [|[f c] rest Hc _ IH]; [reflexivity|].
  destruct (regular_entry_answers c Hc) as [b Hb].
  rewrite (reached_cons_answered (f, c) rest b Hb).
  cbn [existsb flat_map snd]. destruct Hc as [Hc|Hc].
  - destruct (dicts_of_regular_file root true f c Hc) as [_ [_ [-> ->]]].
    exact IH.
  - destruct (dicts_of_regular_directory root true f c Hc)
      as [_ [_ [-> ->]]].
    cbn [orb app]. eexists; eexists; reflexivity.
Qed.

Lemma size_of_innermost_directories_unfold n :
  size_of_innermost_directories n
  = match os_scandir n with
    | Returns entries =>
        fold_right
          (fun e acc =>
             (if walk_is_dir (snd e) then
                match os_scandir (snd e) with
                | Returns sub =>
                    if existsb (fun x => walk_is_dir (snd x)) sub
                    then size_of_innermost_directories (snd e)
                    else sum_of_file_sizes (snd e)
                | Errno _ => 0
                end
              else 0) + acc)
          0 entries
    | Errno _ => 0
    end.
Proof. destruct n; reflexivity. Qed.

Lemma only_regular_files_entries n :
  only_regular_files n = true ->
  exists entries,
    os_scandir n = Returns entries
    /\ Forall
         (fun e =>
            readable_regular_file (snd e) = true
            \/ only_regular_files (snd e) = true)
         entries.
Proof.
  revert n. apply (only_regular_files_ind
    (fun n =>
       exists entries,
         os_scandir n = Returns entries
         /\ Forall
              (fun e =>
                 readable_regular_file (snd e) = true
                 \/ only_regular_files (snd e) = true)
              entries)).
  intros n entries _ Hscan _ Hentries. exists entries. split; [exact Hscan|].
  eapply Forall_impl; [|exact Hentries].
  intros e [He|[He _]]; [left | right]; exact He.
Qed.

Lemma chart_total_folders_only n :
  only_regular_files n = true ->
  forall root,
  exists kids,
    map_result node_of_item
      (value_of [] (list_files_and_folders_recursive root n true))
    = Ok kids
    /\ leaf_totals kids = size_of_innermost_directories n.
Proof.
  revert n. apply (only_regular_files_ind
    (fun n => forall root,
     exists kids,
       map_result node_of_item
         (value_of [] (list_files_and_folders_recursive root n true))
       = Ok kids
       /\ leaf_totals kids = size_of_innermost_directories n)).
  intros n entries _ Hscan _ Hentries root.
  rewrite scan_returns, size_of_innermost_directories_unfold, Hscan.
  cbn [value_of]. clear Hscan.
  induction Hentries as [|[f c] rest Hc _ IHrest];
    [exists []; split; reflexivity|].
  cbn [snd] in Hc. destruct IHrest as [more [IHmap IHsum]].
  assert (Hans : exists b, is_dir (snd (f, c)) = Returns b).
  { apply regular_entry_answers. destruct Hc as [Hc|[Hc _]]; auto. }
  destruct Hans as [b Hb]. rewrite (reached_cons_answered _ _ _ Hb).
  cbn [flat_map fold_right snd].
  destruct Hc as [Hc|[Hc IHc]].
  - destruct (dicts_of_regular_file root true f c Hc)
      as [_ [_ [-> ->]]].
    cbn [app]. exists more. split; [exact IHmap|]. rewrite IHsum. lia.
  - destruct (dicts_of_regular_directory root true f c Hc)
      as [_ [_ [-> ->]]].
    cbn [app map_result].
    destruct (IHc (os_path_join root f)) as [kids_c [Hmap_c Hsum_c]].
    destruct (node_of_directory_dict f (os_path_join root f)
                (sum_of_file_sizes c) _ kids_c Hmap_c)
      as [kid [-> Hkid]].
    rewrite IHmap. cbn [bind ret]. eexists. split; [reflexivity|].
    cbn [leaf_totals fold_right]. fold (leaf_totals more).
    rewrite Hkid, IHsum. f_equal.
    destruct (only_regular_files_entries c Hc) as [sub [Hsub Hkinds]].
    rewrite Hsub.
    pose proof (folders_only_contents_empty_iff (os_path_join root f)
                  sub Hkinds) as Hempty.
    rewrite scan_returns, Hsub. cbn [value_of].
    destruct (existsb (fun x => walk_is_dir (snd x)) sub).
    + destruct Hempty as [d [ds Hd]]. rewrite Hd. exact Hsum_c.
    + rewrite Hempty. reflexivity.
Qed.

(** X12. [main] scans with [folders_only = True], so the leaves of its
    hierarchy are the directories without sub-directories: for a root that
    holds only regular files, the values of the leaves add up to the sizes
    of those innermost directories alone; the files that lie in the root,
    or in a directory that has sub-directories, are not counted. *)
Theorem main_chart_total_counts_innermost_directories :
  forall fs,
    only_regular_files fs = true ->
    exists node,
      main_d3_data fs = Ok node
      /\ leaf_total node = size_of_innermost_directories fs.
Proof.
  intros fs Hfs. unfold main_d3_data. cbv zeta.
  destruct (chart_total_folders_only fs Hfs "/var/www/html")
    as [kids [Hmap Hsum]].
  rewrite scan_returns in Hmap |- *. cbn [value_of] in Hmap. cbn [bind].
  rewrite transform_is_map_result, Hmap. cbn [bind ret].
  eexists. split; [reflexivity|].
  rewrite leaf_total_branch. exact Hsum.
Qed.

(** X13. Whatever the filesystem, the root and the flag, the transformer
    returns on what the scanner returned: the scan followed by the
    transformation never raises. *)
Theorem transformer_returns_on_scanner_output :
  forall root n folders_only,
  exists structure kids,
    list_files_and_folders_recursive root n folders_only = Ok structure
    /\ transform_for_d3_sunburst structure root = Ok (branch root kids)
    /\ forallb one_of_children_value kids = true
    /\ map (fun kid => Some (node_name kid)) kids = map path structure.
Proof.
  intros root n folders_only.
  pose proof (scan_well_formed n root folders_only) as Hwf.
  rewrite scan_returns in Hwf |- *. cbn [value_of] in Hwf.
  destruct (transform_well_formed _ root Hwf) as [kids [Hnode [Hone Hnames]]].
  eexists. exists kids. split; [reflexivity|]. split; [exact Hnode|].
  split; [exact Hone|].
  clear -Hnames. induction Hnames as [|item kid data kids Hpath _ IH].
  - reflexivity.
  - cbn [map]. rewrite Hpath, IH. reflexivity.
Qed.

(** ** Instances of the further theorems *)

Lemma scanner_lists_entries_in_order_witness :
  os_scandir scenario_nested
  = Returns [("c", directory [("d.txt", regular_file 5)]);
             ("e.txt", regular_file 7)]
  /\ exists structure,
       list_files_and_folders_recursive "/r" scenario_nested true
       = Ok structure
       /\ map name structure = [Some "c"]
       /\ map is_directory_entry structure = [true].
Proof.
  split; [reflexivity|].
  exact (scanner_lists_entries_in_order "/r" scenario_nested true _ eq_refl).
Defined.

Lemma is_dir_error_ends_the_listing_witness :
  is_dir inaccessible_link = Errno PermissionError
  /\ list_files_and_folders_recursive "/r" scenario_inaccessible_link false
     = list_files_and_folders_recursive "/r"
         (directory [("a.txt", regular_file 10)]) false.
Proof.
  split; [reflexivity|].
  apply (is_dir_error_ends_the_listing "/r" scenario_inaccessible_link false
           [("a.txt", regular_file 10)] "link" inaccessible_link
           [("z.txt", regular_file 3)] PermissionError).
  - reflexivity.
  - constructor; [exists false; reflexivity | constructor].
  - reflexivity.
Defined.

Lemma scandir_iterator_error_keeps_the_entries_read_witness :
  scandir_next_error scenario_listing_breaks = Some OtherOSError
  /\ list_files_and_folders_recursive "/r/d" scenario_listing_breaks false
     = list_files_and_folders_recursive "/r/d"
         (directory [("a.txt", regular_file 10)]) false
  /\ get_size "/r/d" scenario_listing_breaks = Ok (Some 0).
Proof.
  split; [reflexivity|].
  destruct (scandir_iterator_error_keeps_the_entries_read
              "/r/d" scenario_listing_breaks false
              [("a.txt", regular_file 10)] OtherOSError eq_refl eq_refl)
    as [Hscan Hsize].
  split; [exact Hscan | exact (Hsize eq_refl eq_refl)].
Defined.

Lemma directory_size_is_the_walk_total_witness :
  walk_hits_unsizable scenario_mixed = false
  /\ get_size "/r" scenario_mixed = Ok (Some 10).
Proof.
  split; [reflexivity|].
  exact (directory_size_is_the_walk_total "/r" scenario_mixed
           eq_refl eq_refl eq_refl).
Defined.

Lemma transformer_raises_KeyError_path_or_returns_witness :
  forallb has_paths
    [ file_dict "a.txt" "/r/a.txt" 10;
      {| name := Some "x"; path := None; type := Some "file";
         size := Some (Some 1); contents := None |} ] = false
  /\ transform_for_d3_sunburst
       [ file_dict "a.txt" "/r/a.txt" 10;
         {| name := Some "x"; path := None; type := Some "file";
            size := Some (Some 1); contents := None |} ] "/r"
     = Raise (KeyError "path").
Proof.
  split; [reflexivity|].
  apply (proj2 (transformer_raises_KeyError_path_or_returns _ "/r")).
  reflexivity.
Defined.

Lemma chart_total_is_the_size_of_the_files_witness :
  only_regular_files scenario_nested = true
  /\ exists structure node,
       list_files_and_folders_recursive "/r" scenario_nested false
       = Ok structure
       /\ transform_for_d3_sunburst structure "/r" = Ok node
       /\ leaf_total node = 12
       /\ get_size "/r" scenario_nested = Ok (Some (leaf_total node)).
Proof.
  split; [reflexivity|].
  exact (chart_total_is_the_size_of_the_files "/r" scenario_nested eq_refl).
Defined.

Lemma scanned_sizes_add_up_witness :
  only_regular_files scenario_nested = true
  /\ exists structure,
       list_files_and_folders_recursive "/r" scenario_nested false
       = Ok structure
       /\ forallb sizes_add_up structure = true
       /\ listed_sizes structure = 12.
Proof.
  split; [reflexivity|].
  exact (scanned_sizes_add_up "/r" scenario_nested eq_refl).
Defined.

Lemma main_chart_total_counts_innermost_directories_witness :
  only_regular_files scenario_nested = true
  /\ sum_of_file_sizes scenario_nested = 12
  /\ exists node,
       main_d3_data scenario_nested = Ok node
       /\ leaf_total node = 5.
Proof.
  split; [reflexivity|]. split; [reflexivity|].
  exact (main_chart_total_counts_innermost_directories scenario_nested
           eq_refl).
Defined.

Lemma empty_directory_becomes_leaf_witness :
  transform_for_d3_sunburst
    ([ file_dict "a.txt" "/r/a.txt" 10 ]
       ++ directory_dict "b" "/r/b" None []
       :: [ file_dict "z.txt" "/r/z.txt" 3 ]) "/r"
  = Ok (branch "/r" [ leaf "/r/a.txt" 10; leaf "/r/b" 0; leaf "/r/z.txt" 3 ]).
Proof.
  exact (proj1 (empty_directory_becomes_leaf
                  [ file_dict "a.txt" "/r/a.txt" 10 ]
                  (directory_dict "b" "/r/b" None [])
                  [ file_dict "z.txt" "/r/z.txt" 3 ]
                  "/r" "/r/b"
                  [ leaf "/r/a.txt" 10 ] [ leaf "/r/z.txt" 3 ]
                  eq_refl eq_refl eq_refl eq_refl)).
Defined.
